(** * Disposition routing engine of returns-hub

    A shallow embedding of [app/services/routing.server.ts]: the condition
    evaluator, the rule selector, the context builder and the rule-set
    validator, together with the parts of the JavaScript runtime they call
    (string case mapping and trimming, [parseFloat], comparison of numbers,
    [Array.prototype.some], [Array.prototype.sort], [Map]).

    Conventions.
    - A JavaScript string is a [string]; its characters are read as code
      units in the Latin-1 range (0..255).
    - A JavaScript number is a [spec_float] in the binary64 format.
    - An optional field ([x?: T]) is an [option]; [None] is [undefined]
      (or [null] for a joined relation that is missing). *)

From Stdlib Require Import ZArith List String Ascii Bool Lia.
From Stdlib Require Import Permutation Sorted.
From Stdlib Require Import DecimalString DecimalZ.
From Stdlib Require Import SpecFloat.
Import ListNotations.

Local Open Scope string_scope.
Local Open Scope Z_scope.

(* ===================================================================== *)
(** ** JavaScript runtime: strings *)
(* ===================================================================== *)

Module JsString.

Definition code (c : ascii) : N := N_of_ascii c.

(** Upper-case letters with a lower-case partner in the Latin-1 range:
    A..Z and the accented capitals U+00C0..U+00DE except U+00D7. *)
Definition is_upper (c : ascii) : bool :=
  let n := code c in
  ((65 <=? n) && (n <=? 90) ||
   (192 <=? n) && (n <=? 222) && negb (n =? 215))%N.

Definition lower_unit (c : ascii) : ascii :=
  if is_upper c then ascii_of_N (code c + 32) else c.

(** [String.prototype.toLowerCase]; on code units below 256 it maps unit
    by unit. *)
Fixpoint toLowerCase (s : string) : string :=
  match s with
  | EmptyString => EmptyString
  | String c t => String (lower_unit c) (toLowerCase t)
  end.

(** Upper-case form of a code unit below 256, as the code units of the
    result: the sharp s (U+00DF) becomes the two letters SS, the micro sign
    (U+00B5) and the y with diaeresis (U+00FF) become U+039C and U+0178,
    a..z and U+00E0..U+00FE except U+00F7 move down by 32. *)
Definition upper_units (c : ascii) : list N :=
  let n := code c in
  (if n =? 223 then [83; 83]
   else if n =? 181 then [924]
   else if n =? 255 then [376]
   else if (97 <=? n) && (n <=? 122)
           || (224 <=? n) && (n <=? 254) && negb (n =? 247)
        then [n - 32]
        else [n])%N.

(** [String.prototype.toUpperCase], as the code units of the result. *)
Fixpoint toUpperCase (s : string) : list N :=
  match s with
  | EmptyString => []
  | String c t => (upper_units c ++ toUpperCase t)%list
  end.

(** WhiteSpace and LineTerminator code units below 256:
    TAB, LF, VT, FF, CR, SP, NBSP. *)
Definition is_white_space (c : ascii) : bool :=
  let n := code c in
  ((9 <=? n) && (n <=? 13) || (n =? 32) || (n =? 160))%N.

Fixpoint trimStart (s : string) : string :=
  match s with
  | EmptyString => EmptyString
  | String c t => if is_white_space c then trimStart t else s
  end.

Fixpoint trimEnd (s : string) : string :=
  match s with
  | EmptyString => EmptyString
  | String c t =>
      match trimEnd t with
      | EmptyString => if is_white_space c then EmptyString
                       else String c EmptyString
      | t' => String c t'
      end
  end.

(** [String.prototype.trim]. *)
Definition trim (s : string) : string := trimEnd (trimStart s).

(** [String.prototype.includes] with the default position 0. *)
Fixpoint includes (s search : string) : bool :=
  prefix search s ||
  match s with
  | EmptyString => false
  | String _ t => includes t search
  end.

End JsString.

(* ===================================================================== *)
(** ** JavaScript runtime: numbers *)
(* ===================================================================== *)

Module JsNumber.

Definition prec : Z := 53.
Definition emax : Z := 1024.

(** The Number type: IEEE 754 binary64. *)
Definition number : Type := spec_float.

Definition NaN : number := S754_nan.

(** Global [isNaN] on a value that is already a number. *)
Definition isNaN (x : number) : bool :=
  match x with S754_nan => true | _ => false end.

(** [x < y] and [x > y] on numbers. *)
Definition lt (x y : number) : bool := SFltb x y.
Definition gt (x y : number) : bool := SFltb y x.
(** [x == y] on numbers. *)
Definition eq (x y : number) : bool := SFeqb x y.

Definition of_Z (z : Z) : number := binary_normalize prec emax z 0 false.

(** The Number value of [(-1)^neg * m * 10^e] for [0 <= m]:
    round to nearest, ties to even. *)
Definition of_decimal (neg : bool) (m e : Z) : number :=
  if m =? 0 then S754_zero neg
  else if 0 <=? e then
    binary_normalize prec emax ((if neg then - m else m) * 10 ^ e) 0 neg
  else
    let '(q, e', l) := SFdiv_core_binary prec emax m 0 (10 ^ (- e)) 0 in
    binary_round_aux prec emax neg q e' l.

Definition is_digit (c : ascii) : bool :=
  let n := N_of_ascii c in ((48 <=? n) && (n <=? 57))%N.

Definition digit_value (c : ascii) : Z := Z.of_N (N_of_ascii c) - 48.

(** Reads a maximal run of decimal digits: the value accumulated on top
    of [acc], the number of digits read, and the rest of the input. *)
Fixpoint scan_digits (acc cnt : Z) (s : string) : Z * Z * string :=
  match s with
  | String c t =>
      if is_digit c then scan_digits (10 * acc + digit_value c) (cnt + 1) t
      else (acc, cnt, s)
  | EmptyString => (acc, cnt, s)
  end.

Definition scan_sign (s : string) : bool * string :=
  match s with
  | String "-" t => (true, t)
  | String "+" t => (false, t)
  | _ => (false, s)
  end.

(** ExponentPart, when one is present and well formed; 0 otherwise. *)
Definition scan_exponent (s : string) : Z :=
  match s with
  | String c t =>
      if (c =? "e")%char || (c =? "E")%char then
        let '(neg, t') := scan_sign t in
        let '(v, n, _) := scan_digits 0 0 t' in
        if n =? 0 then 0 else if neg then - v else v
      else 0
  | EmptyString => 0
  end.

(** Global [parseFloat]: skip leading white space, take the longest
    prefix that is a StrDecimalLiteral, and return its Number value;
    [NaN] when there is no such prefix. *)
Definition parseFloat (input : string) : number :=
  let s := JsString.trimStart input in
  let '(neg, s1) := scan_sign s in
  if prefix "Infinity" s1 then S754_infinity neg
  else
    let '(ip, ni, s2) := scan_digits 0 0 s1 in
    let '(m, nf, s3) :=
      match s2 with
      | String "." t => scan_digits ip 0 t
      | _ => (ip, 0, s2)
      end in
    if ni + nf =? 0 then NaN
    else of_decimal neg m (scan_exponent s3 - nf).

End JsNumber.

(* ===================================================================== *)
(** ** JavaScript runtime: values, arrays, maps *)
(* ===================================================================== *)

Module Js.

(** The values an expression of type [boolean | undefined] can take. *)
Inductive value : Type :=
| Undefined
| Bool (b : bool).

Definition ToBoolean (v : value) : bool :=
  match v with
  | Undefined => false
  | Bool b => b
  end.

(** [o?.m(...)]: [undefined] when the receiver is missing, the result of
    the call otherwise. *)
Definition optional {A B : Type} (o : option A) (f : A -> B) : option B :=
  match o with
  | None => None
  | Some a => Some (f a)
  end.

Definition of_option (o : option bool) : value :=
  match o with
  | None => Undefined
  | Some b => Bool b
  end.

(** [lhs === rhs] where [lhs : string | undefined] and [rhs : string]. *)
Definition strict_eq (lhs : option string) (rhs : string) : bool :=
  match lhs with
  | None => false
  | Some s => String.eqb s rhs
  end.

(** [lhs ?? rhs]. *)
Definition nullish (lhs rhs : value) : value :=
  match lhs with
  | Undefined => rhs
  | _ => lhs
  end.

(** [Array.prototype.some]: the callback's result goes through
    ToBoolean. *)
Definition some {A : Type} (f : A -> value) (l : list A) : bool :=
  existsb (fun x => ToBoolean (f x)) l.

(** [Array.prototype.sort] with a comparator: [x] is placed before [y]
    when [cmp x y < 0], after it when [cmp x y > 0], and elements that
    compare equal keep their order (the sort is stable). *)
Fixpoint sort_insert {A : Type} (cmp : A -> A -> Z) (x : A) (l : list A)
  : list A :=
  match l with
  | [] => [x]
  | y :: l' =>
      if cmp x y <=? 0 then x :: y :: l' else y :: sort_insert cmp x l'
  end.

Fixpoint sort {A : Type} (cmp : A -> A -> Z) (l : list A) : list A :=
  match l with
  | [] => []
  | x :: l' => sort_insert cmp x (sort cmp l')
  end.

(** [Map<number, number>]: entries in insertion order. *)
Definition Map : Type := list (Z * Z).

Fixpoint map_get (m : Map) (k : Z) : option Z :=
  match m with
  | [] => None
  | (k', v) :: m' => if k' =? k then Some v else map_get m' k
  end.

Fixpoint map_set (m : Map) (k v : Z) : Map :=
  match m with
  | [] => [(k, v)]
  | (k', v') :: m' =>
      if k' =? k then (k', v) :: m' else (k', v') :: map_set m' k v
  end.

(** [x || 0] for [x : number | undefined] holding an integer. *)
Definition or_zero (x : option Z) : Z :=
  match x with
  | None => 0
  | Some v => v
  end.

(** Number-to-string conversion of an integer, as a template literal
    does it. *)
Definition string_of_Z (z : Z) : string :=
  NilEmpty.string_of_int (Z.to_int z).

End Js.

(* ===================================================================== *)
(** ** Data model *)
(* ===================================================================== *)

Import JsString JsNumber.

Record Item : Type := {
  productType : option string;
  productTags : option (list string);
  productVendor : option string;
  sku : option string
}.

Record RoutingContext : Type := {
  orderValue : number;
  returnReason : option string;
  customerTags : option (list string);
  items : list Item
}.

Record ReturnDestination : Type := {
  dest_id : string;
  dest_shop : string;
  dest_name : string;
  addressLine1 : string;
  addressLine2 : option string;
  city : string;
  state : string;
  postalCode : string;
  country : string;
  phone : option string;
  isDefault : bool
}.

Record RoutingRule : Type := {
  id : string;
  shop : string;
  name : string;
  priority : Z;
  isActive : bool;
  conditionType : string;
  conditionValue : string;
  destinationId : string
}.

(** [interface RuleWithDestination extends RoutingRule]: the rule joined
    with its destination record; [None] when the join finds none. *)
Record RuleWithDestination : Type := {
  rule :> RoutingRule;
  destination : option ReturnDestination
}.

(* ===================================================================== *)
(** ** Condition evaluator *)
(* ===================================================================== *)

Definition evaluateCondition (rule : RoutingRule) (context : RoutingContext)
  : Js.value :=
  let normalizedValue := trim (toLowerCase (conditionValue rule)) in
  let conditionType := conditionType rule in
  if (conditionType =? "product_type")%string then
    Js.Bool (Js.some
      (fun item => Js.Bool
         (Js.strict_eq (Js.optional (productType item) toLowerCase)
                       normalizedValue))
      (items context))
  else if (conditionType =? "product_tag")%string then
    Js.Bool (Js.some
      (fun item => Js.of_option
         (Js.optional (productTags item)
            (Js.some (fun tag =>
               Js.Bool (toLowerCase tag =? normalizedValue)%string))))
      (items context))
  else if (conditionType =? "product_vendor")%string then
    Js.Bool (Js.some
      (fun item => Js.Bool
         (Js.strict_eq (Js.optional (productVendor item) toLowerCase)
                       normalizedValue))
      (items context))
  else if (conditionType =? "sku_contains")%string then
    Js.Bool (Js.some
      (fun item => Js.of_option
         (Js.optional (sku item)
            (fun s => includes (toLowerCase s) normalizedValue)))
      (items context))
  else if (conditionType =? "order_value_above")%string then
    let minValue := parseFloat (conditionValue rule) in
    Js.Bool (negb (isNaN minValue) && gt (orderValue context) minValue)
  else if (conditionType =? "order_value_below")%string then
    let maxValue := parseFloat (conditionValue rule) in
    Js.Bool (negb (isNaN maxValue) && lt (orderValue context) maxValue)
  else if (conditionType =? "return_reason")%string then
    Js.Bool (Js.strict_eq (Js.optional (returnReason context) toLowerCase)
                          normalizedValue)
  else if (conditionType =? "customer_tag")%string then
    Js.nullish
      (Js.of_option
         (Js.optional (customerTags context)
            (Js.some (fun tag =>
               Js.Bool (toLowerCase tag =? normalizedValue)%string))))
      (Js.Bool false)
  else
    Js.Bool false.

(* ===================================================================== *)
(** ** Rule selector *)
(* ===================================================================== *)

(** The [for ... of] loop of [findMatchingDestination]; [None] is [null]. *)
Fixpoint first_match (sortedRules : list RuleWithDestination)
  (context : RoutingContext) : option ReturnDestination :=
  match sortedRules with
  | [] => None
  | rule :: rest =>
      if Js.ToBoolean (evaluateCondition rule context) then destination rule
      else first_match rest context
  end.

Definition by_priority (a b : RuleWithDestination) : Z :=
  priority a - priority b.

Definition findMatchingDestination (rules : list RuleWithDestination)
  (context : RoutingContext) : option ReturnDestination :=
  let sortedRules :=
    Js.sort by_priority
      (filter (fun rule : RuleWithDestination => isActive rule) rules) in
  first_match sortedRules context.

(* ===================================================================== *)
(** ** Context builder *)
(* ===================================================================== *)

Record OrderData : Type := {
  totalValue : number;
  lineItems : list Item
}.

Record ReturnData : Type := { reason : option string }.

Record CustomerData : Type := { tags : option (list string) }.

Definition buildRoutingContext (orderData : OrderData)
  (returnData : ReturnData) (customerData : option CustomerData)
  : RoutingContext :=
  {| orderValue := totalValue orderData;
     returnReason := reason returnData;
     customerTags := match customerData with
                     | None => None
                     | Some c => tags c
                     end;
     items := lineItems orderData |}.

(* ===================================================================== *)
(** ** Rule-set validator *)
(* ===================================================================== *)

(** The two tables the validator reads. *)
Record Db : Type := {
  routingRule : list RoutingRule;
  returnDestination : list ReturnDestination
}.

(** [db.routingRule.findMany({ where: { shop }, include: { destination:
    true } })]: the shop's rules, each joined with the destination whose
    id is the rule's [destinationId]. *)
Definition routingRule_findMany (db : Db) (shop' : string)
  : list RuleWithDestination :=
  map (fun r =>
         {| rule := r;
            destination :=
              find (fun d => (dest_id d =? destinationId r)%string)
                   (returnDestination db) |})
      (filter (fun r => (shop r =? shop')%string) (routingRule db)).

(** [db.returnDestination.findMany({ where: { shop } })]. *)
Definition returnDestination_findMany (db : Db) (shop' : string)
  : list ReturnDestination :=
  filter (fun d => (dest_shop d =? shop')%string) (returnDestination db).

Record ValidationResult : Type := {
  valid : bool;
  issues : list string
}.

Definition dquote : string := String (ascii_of_N 34) EmptyString.

Definition no_destinations_issue : string :=
  "No return destinations configured".

Definition no_default_issue : string :=
  "No default destination set - returns without matching rules will have no destination".

Definition deleted_destination_issue (rule_name : string) : string :=
  "Rule " ++ dquote ++ rule_name ++ dquote
  ++ " references a deleted destination".

Definition invalid_numeric_issue (rule_name value : string) : string :=
  "Rule " ++ dquote ++ rule_name ++ dquote
  ++ " has invalid numeric value: " ++ value.

Definition duplicate_priority_issue (priority' : Z) : string :=
  "Multiple active rules have the same priority ("
  ++ Js.string_of_Z priority' ++ ") - order may be unpredictable".

(** [issues.push(x)] when [cond] holds. *)
Definition push_if (cond : bool) (x : string) (issues' : list string)
  : list string :=
  if cond then issues' ++ [x] else issues'.

(** Body of the loop over the rules. *)
Definition check_rule (issues' : list string) (rule' : RuleWithDestination)
  : list string :=
  let issues1 :=
    push_if (match destination rule' with None => true | Some _ => false end)
            (deleted_destination_issue (name rule')) issues' in
  if (conditionType rule' =? "order_value_above")%string
     || (conditionType rule' =? "order_value_below")%string
  then
    let value := parseFloat (conditionValue rule') in
    push_if (isNaN value)
            (invalid_numeric_issue (name rule') (conditionValue rule'))
            issues1
  else issues1.

(** Body of the loop that counts the active rules per priority. *)
Definition count_priority (priorityCounts : Js.Map)
  (rule' : RuleWithDestination) : Js.Map :=
  let count := Js.or_zero (Js.map_get priorityCounts (priority rule')) in
  Js.map_set priorityCounts (priority rule') (count + 1).

(** Body of the loop over the entries of [priorityCounts]. *)
Definition check_count (issues' : list string) (entry : Z * Z)
  : list string :=
  let '(priority', count) := entry in
  push_if (1 <? count) (duplicate_priority_issue priority') issues'.

(** [validateRoutingRules] once both queries have returned. *)
Definition validate (rules : list RuleWithDestination)
  (destinations : list ReturnDestination) : ValidationResult :=
  let issues0 : list string := [] in
  let issues1 :=
    push_if (Nat.eqb (List.length destinations) 0) no_destinations_issue
            issues0 in
  let hasDefault := existsb isDefault destinations in
  let issues2 :=
    push_if (negb hasDefault && Nat.ltb 0 (List.length destinations))
            no_default_issue issues1 in
  let issues3 := fold_left check_rule rules issues2 in
  let priorityCounts :=
    fold_left count_priority
      (filter (fun r : RuleWithDestination => isActive r) rules) [] in
  let issues4 := fold_left check_count priorityCounts issues3 in
  {| valid := Nat.eqb (List.length issues4) 0; issues := issues4 |}.

Definition validateRoutingRules (db : Db) (shop' : string)
  : ValidationResult :=
  let rules := routingRule_findMany db shop' in
  let destinations := returnDestination_findMany db shop' in
  validate rules destinations.

(* ===================================================================== *)
(** ** Routing a return: the selector with the shop's default *)
(* ===================================================================== *)

(** [db.routingRule.findMany({ where: { shop, isActive: true }, include:
    { destination: true }, orderBy: { priority: "asc" } })]. The database
    is free to return rows of equal priority in any order; here they come
    in table order. The properties of the callers are proved for every
    order the database may choose (see [query_answer]). *)
Definition routingRule_findMany_active (db : Db) (shop' : string)
  : list RuleWithDestination :=
  Js.sort by_priority
    (filter (fun r : RuleWithDestination => isActive r)
            (routingRule_findMany db shop')).

(** [db.returnDestination.findFirst({ where: { shop, isDefault: true } })];
    [None] is [null]. With several defaults the first in table order is
    taken here; the properties of the callers are proved for every choice
    (see [default_answer]). *)
Definition returnDestination_findFirst_default (db : Db) (shop' : string)
  : option ReturnDestination :=
  find (fun d => (dest_shop d =? shop')%string && isDefault d)
       (returnDestination db).

(** [getDestinationForReturn] once the rules are loaded;
    [defaultDestination] is what the second query answers. *)
Definition getDestinationForReturn_with (rules : list RuleWithDestination)
  (defaultDestination : option ReturnDestination)
  (context : RoutingContext) : option ReturnDestination :=
  let matchedDestination := findMatchingDestination rules context in
  match matchedDestination with
  | Some d => Some d
  | None => defaultDestination
  end.

Definition getDestinationForReturn (db : Db) (shop' : string)
  (context : RoutingContext) : option ReturnDestination :=
  getDestinationForReturn_with (routingRule_findMany_active db shop')
    (returnDestination_findFirst_default db shop') context.

Record RouteResult : Type := {
  route_destination : option ReturnDestination;
  matchedRule : option RuleWithDestination
}.

(** [routeReturnRequest] once the rules are loaded: the loop over the rows
    in the order of the query, then the default. *)
Fixpoint routeReturnRequest_with (rules : list RuleWithDestination)
  (defaultDestination : option ReturnDestination)
  (context : RoutingContext) : RouteResult :=
  match rules with
  | [] => {| route_destination := defaultDestination; matchedRule := None |}
  | rule' :: rest =>
      if Js.ToBoolean (evaluateCondition rule' context)
      then {| route_destination := destination rule';
              matchedRule := Some rule' |}
      else routeReturnRequest_with rest defaultDestination context
  end.

Definition routeReturnRequest (db : Db) (shop' returnRequestId : string)
  (context : RoutingContext) : RouteResult :=
  routeReturnRequest_with (routingRule_findMany_active db shop')
    (returnDestination_findFirst_default db shop') context.

(* ===================================================================== *)
(** ** Fixtures of routing.server.test.ts *)
(* ===================================================================== *)

Module Tests.

Definition mockReturnDestination : ReturnDestination :=
  {| dest_id := "dest_123"; dest_shop := "test-store.myshopify.com";
     dest_name := "Main Warehouse"; addressLine1 := "123 Warehouse St";
     addressLine2 := Some "Suite 100"; city := "San Francisco";
     state := "CA"; postalCode := "94102"; country := "US";
     phone := Some "415-555-1234"; isDefault := true |}.

Definition createMockDestination (id' name' : string) : ReturnDestination :=
  {| dest_id := id'; dest_shop := dest_shop mockReturnDestination;
     dest_name := name';
     addressLine1 := addressLine1 mockReturnDestination;
     addressLine2 := addressLine2 mockReturnDestination;
     city := city mockReturnDestination;
     state := state mockReturnDestination;
     postalCode := postalCode mockReturnDestination;
     country := country mockReturnDestination;
     phone := phone mockReturnDestination;
     isDefault := isDefault mockReturnDestination |}.

Definition createMockRoutingRule (id' : string) (priority' : Z)
  (isActive' : bool) (conditionType' conditionValue' : string)
  : RoutingRule :=
  {| id := id'; shop := "test-store.myshopify.com";
     name := "Electronics to Warehouse B"; priority := priority';
     isActive := isActive'; conditionType := conditionType';
     conditionValue := conditionValue'; destinationId := "dest_123" |}.

Definition mockRule (conditionType' conditionValue' : string)
  : RoutingRule :=
  createMockRoutingRule "rule_123" 1 true conditionType' conditionValue'.

Definition baseContext : RoutingContext :=
  {| orderValue := of_Z 100;
     returnReason := Some "defective";
     customerTags := Some ["vip"; "wholesale"];
     items := [ {| productType := Some "Electronics";
                   productTags := Some ["featured"; "sale"];
                   productVendor := Some "Acme Corp";
                   sku := Some "ELEC-001-BLK" |} ] |}.

(** [baseContext] with every string field in capitals. *)
Definition shoutedContext : RoutingContext :=
  {| orderValue := of_Z 100;
     returnReason := Some "DEFECTIVE";
     customerTags := Some ["VIP"; "WHOLESALE"];
     items := [ {| productType := Some "ELECTRONICS";
                   productTags := Some ["FEATURED"; "SALE"];
                   productVendor := Some "ACME CORP";
                   sku := Some "ELEC-001-BLK" |} ] |}.

Definition destA := createMockDestination "dest_a" "Warehouse A".
Definition destB := createMockDestination "dest_b" "Warehouse B".

Definition electronicsContext : RoutingContext :=
  {| orderValue := of_Z 100;
     returnReason := None;
     customerTags := None;
     items := [ {| productType := Some "Electronics";
                   productTags := None;
                   productVendor := None;
                   sku := None |} ] |}.

Definition byPriorityRules : list RuleWithDestination :=
  [ {| rule := createMockRoutingRule "rule_1" 2 true
                 "product_type" "Electronics";
       destination := Some destB |};
    {| rule := createMockRoutingRule "rule_2" 1 true
                 "order_value_above" "50";
       destination := Some destA |} ].

Definition inactiveRules : list RuleWithDestination :=
  [ {| rule := createMockRoutingRule "rule_1" 1 false
                 "product_type" "Electronics";
       destination := Some destA |};
    {| rule := createMockRoutingRule "rule_2" 2 true
                 "order_value_above" "50";
       destination := Some destB |} ].

(** The first rule matches and its destination is missing; the second
    matches too and has one. *)
Definition danglingRules : list RuleWithDestination :=
  [ {| rule := createMockRoutingRule "rule_1" 1 true
                 "order_value_above" "50";
       destination := None |};
    {| rule := createMockRoutingRule "rule_2" 2 true
                 "product_type" "Electronics";
       destination := Some destB |} ].

(** Two active rules; the one of lower priority has lost its
    destination. *)
Definition danglingDb : Db :=
  {| routingRule :=
       [ {| id := "rule_1"; shop := "test-store.myshopify.com";
            name := "Big orders"; priority := 1; isActive := true;
            conditionType := "order_value_above"; conditionValue := "50";
            destinationId := "dest_gone" |};
         createMockRoutingRule "rule_2" 2 true "product_type" "Electronics" ];
     returnDestination := [mockReturnDestination] |}.

(** One rule with a destination, and a default destination. *)
Definition healthyDb : Db :=
  {| routingRule :=
       [ createMockRoutingRule "rule_1" 1 true "product_type" "Electronics" ];
     returnDestination := [mockReturnDestination] |}.

(** A threshold rule whose value is not a number and whose destination
    is gone. *)
Definition invalidRule : RuleWithDestination :=
  {| rule := {| id := "rule_1"; shop := "test-store.myshopify.com";
                name := "Big orders"; priority := 1; isActive := true;
                conditionType := "order_value_above";
                conditionValue := "fifty";
                destinationId := "dest_gone" |};
     destination := None |}.

Definition brokenDb : Db :=
  {| routingRule := [ rule invalidRule ];
     returnDestination := [mockReturnDestination] |}.

(** Two active rules of one priority, both true on
    [electronicsContext]. *)
Definition tiedRules : list RuleWithDestination :=
  [ {| rule := createMockRoutingRule "rule_1" 3 true
                 "product_type" "Electronics";
       destination := Some destB |};
    {| rule := createMockRoutingRule "rule_2" 3 true
                 "order_value_above" "50";
       destination := Some destA |} ].

(** The word s, t, r, a, sharp s (U+00DF), e. *)
Definition strasse : string :=
  "stra" ++ String (ascii_of_N 223) "e".

Definition strasseContext : RoutingContext :=
  {| orderValue := of_Z 100;
     returnReason := None;
     customerTags := None;
     items := [ {| productType := Some strasse;
                   productTags := None;
                   productVendor := None;
                   sku := None |} ] |}.

(** One active rule on clothing, and a default destination. *)
Definition clothingDb : Db :=
  {| routingRule :=
       [ createMockRoutingRule "rule_1" 1 true "product_type" "Clothing" ];
     returnDestination := [mockReturnDestination] |}.

(** Two active rules, stored with the higher priority number first. *)
Definition twoRulesDb : Db :=
  {| routingRule :=
       [ createMockRoutingRule "rule_1" 2 true "product_type" "Electronics";
         createMockRoutingRule "rule_2" 1 true "order_value_above" "50" ];
     returnDestination := [mockReturnDestination] |}.

(** The rules of [twoRulesDb] joined with their destination, ascending by
    priority. *)
Definition twoRulesByPriority : list RuleWithDestination :=
  [ {| rule := createMockRoutingRule "rule_2" 1 true
                 "order_value_above" "50";
       destination := Some mockReturnDestination |};
    {| rule := createMockRoutingRule "rule_1" 2 true
                 "product_type" "Electronics";
       destination := Some mockReturnDestination |} ].

Definition emptyDb : Db :=
  {| routingRule := []; returnDestination := [] |}.

(** Two active rules of priority 3. *)
Definition tiedDb : Db :=
  {| routingRule :=
       [ createMockRoutingRule "rule_1" 3 true "product_type" "Electronics";
         createMockRoutingRule "rule_2" 3 true "order_value_above" "50" ];
     returnDestination := [mockReturnDestination] |}.

(** An active and an inactive rule of priority 3. *)
Definition pausedDb : Db :=
  {| routingRule :=
       [ createMockRoutingRule "rule_1" 3 true "product_type" "Electronics";
         createMockRoutingRule "rule_2" 3 false "order_value_above" "50" ];
     returnDestination := [mockReturnDestination] |}.

End Tests.

(* ===================================================================== *)
(** ** Specification-side definitions *)
(* ===================================================================== *)

(** The eight recognised condition types. *)
Definition ConditionType : list string :=
  [ "product_type"; "product_tag"; "sku_contains"; "order_value_above";
    "order_value_below"; "return_reason"; "customer_tag"; "product_vendor" ].

(** The condition types whose operand is matched as a string. *)
Definition string_valued : list string :=
  [ "product_type"; "product_tag"; "product_vendor"; "sku_contains";
    "return_reason"; "customer_tag" ].

(** [evaluateCondition(rule, context)] is true. *)
Definition matches (context : RoutingContext) (rule : RoutingRule) : bool :=
  match evaluateCondition rule context with
  | Js.Bool true => true
  | _ => false
  end.

(** *** Strings that differ only in letter case *)

(** Two strings with one lower-case form or one upper-case form. *)
Definition differ_only_in_case (s t : string) : Prop :=
  toLowerCase s = toLowerCase t \/ toUpperCase s = toUpperCase t.

(** Two strings with one lower-case form. *)
Definition same_lower (s t : string) : Prop :=
  toLowerCase s = toLowerCase t.

Definition opt_variant {A : Type} (R : A -> A -> Prop) (x y : option A)
  : Prop :=
  match x, y with
  | None, None => True
  | Some a, Some b => R a b
  | _, _ => False
  end.

(** Items, and contexts, whose string fields have the same lower-case
    forms. *)
Record item_variant (i j : Item) : Prop := {
  iv_productType : opt_variant same_lower (productType i) (productType j);
  iv_productTags :
    opt_variant (Forall2 same_lower) (productTags i) (productTags j);
  iv_productVendor :
    opt_variant same_lower (productVendor i) (productVendor j);
  iv_sku : opt_variant same_lower (sku i) (sku j)
}.

Record context_variant (c d : RoutingContext) : Prop := {
  cv_orderValue : orderValue c = orderValue d;
  cv_returnReason :
    opt_variant same_lower (returnReason c) (returnReason d);
  cv_customerTags :
    opt_variant (Forall2 same_lower) (customerTags c) (customerTags d);
  cv_items : Forall2 item_variant (items c) (items d)
}.

(** *** The reference selection algorithm *)

Definition priority_le (a b : RuleWithDestination) : Prop :=
  priority a <= priority b.

Definition with_priority (p : Z) (l : list RuleWithDestination)
  : list RuleWithDestination :=
  filter (fun r : RuleWithDestination => priority r =? p) l.

(** [sorted] is [l] sorted ascending by priority with a stable sort: the
    same rules, in ascending order of priority, and the rules of any one
    priority in the order they have in [l]. *)
Definition stable_sort_by_priority (l sorted : list RuleWithDestination)
  : Prop :=
  Permutation l sorted
  /\ StronglySorted priority_le sorted
  /\ forall p, with_priority p sorted = with_priority p l.

(** Destination of the first rule of [sorted] whose condition is true,
    [None] (null) when there is none. *)
Definition first_matching_destination (sorted : list RuleWithDestination)
  (context : RoutingContext) : option ReturnDestination :=
  match find (fun r : RuleWithDestination => matches context r) sorted with
  | Some r => destination r
  | None => None
  end.

Definition reference_selection (rules : list RuleWithDestination)
  (context : RoutingContext) (result : option ReturnDestination) : Prop :=
  exists sorted,
    stable_sort_by_priority
      (filter (fun r : RuleWithDestination => isActive r) rules) sorted
    /\ result = first_matching_destination sorted context.

(** *** Counting for the validator *)

Definition active_with_priority (p : Z) (rules : list RuleWithDestination)
  : nat :=
  List.length
    (filter (fun r : RuleWithDestination => isActive r && (priority r =? p))
            rules).

(** A string made of white space only (possibly empty). *)
Definition blank (s : string) : Prop :=
  Forall (fun c => is_white_space c = true) (list_ascii_of_string s).

(** A condition value parses as the number [t]. *)
Definition parses_as (s : string) (t : number) : Prop :=
  parseFloat s = t /\ isNaN t = false.

(** First character of a string; the kinds of issue differ there. *)
Definition initial (s : string) : option ascii :=
  match s with
  | EmptyString => None
  | String c _ => Some c
  end.

(** *** Answers of the database to the queries of the callers *)

(** What the ordered query of the active rules may answer: the active
    rules of the shop, ascending by priority. *)
Definition query_answer (db : Db) (shop' : string)
  (rows : list RuleWithDestination) : Prop :=
  Permutation
    (filter (fun r : RuleWithDestination => isActive r)
            (routingRule_findMany db shop')) rows
  /\ StronglySorted priority_le rows.

(** What the query of the default destination may answer: one of the
    shop's default destinations, or null when it has none. *)
Definition default_answer (db : Db) (shop' : string)
  (d : option ReturnDestination) : Prop :=
  match d with
  | Some x => In x (returnDestination_findMany db shop') /\ isDefault x = true
  | None => forall x, In x (returnDestination_findMany db shop') ->
                      isDefault x = false
  end.

(** The two value-threshold condition types. *)
Definition threshold_type (t : string) : bool :=
  (t =? "order_value_above")%string || (t =? "order_value_below")%string.

(** The condition types that look at the line items. *)
Definition item_valued : list string :=
  [ "product_type"; "product_tag"; "product_vendor"; "sku_contains" ].

(** A string that begins or ends with white space. *)
Definition padded (s : string) : Prop :=
  (exists c t, s = String c t /\ is_white_space c = true)
  \/ (exists t c, s = t ++ String c EmptyString /\ is_white_space c = true).

(* ===================================================================== *)
(** ** Lemmas on the runtime *)
(* ===================================================================== *)

Section StringFacts.

Lemma lower_unit_idem (c : ascii) : lower_unit (lower_unit c) = lower_unit c.
Proof. destruct c as [[] [] [] [] [] [] [] []]; reflexivity. Qed.

Lemma lower_unit_white_space (c : ascii) :
  is_white_space (lower_unit c) = is_white_space c.
Proof. destruct c as [[] [] [] [] [] [] [] []]; reflexivity. Qed.

Lemma white_space_lower_unit (c : ascii) :
  is_white_space c = true -> lower_unit c = c.
Proof. destruct c as [[] [] [] [] [] [] [] []]; simpl; auto; discriminate. Qed.

Lemma trimStart_blank (s : string) : blank s -> trimStart s = EmptyString.
Proof.
  unfold blank. induction s as [| c s IH]; simpl; intros H.
  - reflexivity.
  - inversion H as [| ? ? Hc Hs]; subst. rewrite Hc. auto.
Qed.

Lemma toLowerCase_blank (s : string) : blank s -> toLowerCase s = s.
Proof.
  unfold blank. induction s as [| c s IH]; simpl; intros H.
  - reflexivity.
  - inversion H as [| ? ? Hc Hs]; subst.
    now rewrite (white_space_lower_unit _ Hc), IH.
Qed.

Lemma normalized_blank (s : string) :
  blank s -> trim (toLowerCase s) = EmptyString.
Proof.
  intros H. rewrite (toLowerCase_blank _ H). unfold trim.
  now rewrite (trimStart_blank _ H).
Qed.

Lemma includes_empty (s : string) : includes s EmptyString = true.
Proof. destruct s; reflexivity. Qed.

(** Lower-casing and trimming commute, so the normalised value is both
    the trimmed lower-case form and the lower-cased trimmed form. *)
Lemma trimStart_toLowerCase (s : string) :
  trimStart (toLowerCase s) = toLowerCase (trimStart s).
Proof.
  induction s as [| c s IH]; simpl; [reflexivity |].
  rewrite lower_unit_white_space.
  now destruct (is_white_space c).
Qed.

Lemma trimEnd_toLowerCase (s : string) :
  trimEnd (toLowerCase s) = toLowerCase (trimEnd s).
Proof.
  induction s as [| c s IH]; simpl; [reflexivity |].
  rewrite IH, lower_unit_white_space.
  destruct (trimEnd s); simpl; [| reflexivity].
  now destruct (is_white_space c).
Qed.

Lemma trim_toLowerCase (s : string) :
  trim (toLowerCase s) = toLowerCase (trim s).
Proof.
  unfold trim. now rewrite trimStart_toLowerCase, trimEnd_toLowerCase.
Qed.

End StringFacts.

Section NumberFacts.

Lemma SFcompare_Eq_sym (x y : spec_float) :
  SFcompare x y = Some Eq -> SFcompare y x = Some Eq.
Proof.
  destruct x as [sx | sx | | sx mx ex], y as [sy | sy | | sy my ey];
    simpl; try discriminate; auto;
    try (destruct sx; discriminate); try (destruct sy; discriminate).
  - destruct sx, sy; auto; discriminate.
  - rewrite (Z.compare_antisym ex ey).
    destruct sx, sy; try discriminate;
      destruct (ex ?= ey); simpl; try discriminate;
      match goal with
      | |- context [?f Eq my mx] =>
          replace (f Eq my mx) with (CompOpp (f Eq mx my))
            by exact (Pos.compare_cont_antisym mx my Eq);
          destruct (f Eq mx my); simpl; auto; discriminate
      end.
Qed.

Lemma eq_not_lt (x y : number) : eq x y = true -> lt x y = false.
Proof.
  unfold eq, lt, SFeqb, SFltb.
  destruct (SFcompare x y) as [[] |]; auto; discriminate.
Qed.

Lemma eq_not_gt (x y : number) : eq x y = true -> gt x y = false.
Proof.
  unfold eq, gt, SFeqb, SFltb. intros H.
  destruct (SFcompare x y) as [[] |] eqn:E; try discriminate.
  now rewrite (SFcompare_Eq_sym _ _ E).
Qed.

Lemma lt_NaN (x : number) : lt x NaN = false /\ gt x NaN = false.
Proof. destruct x; split; reflexivity. Qed.

End NumberFacts.

(** Unfolding of [evaluateCondition] at each recognised condition type. *)
Section EvaluateCases.

Variables (rule : RoutingRule) (context : RoutingContext).

Ltac at_type H := unfold evaluateCondition; rewrite H; reflexivity.

Lemma evaluate_product_type :
  conditionType rule = "product_type" ->
  evaluateCondition rule context =
  Js.Bool (Js.some
    (fun item => Js.Bool
       (Js.strict_eq (Js.optional (productType item) toLowerCase)
                     (trim (toLowerCase (conditionValue rule)))))
    (items context)).
Proof. intros H; at_type H. Qed.

Lemma evaluate_product_tag :
  conditionType rule = "product_tag" ->
  evaluateCondition rule context =
  Js.Bool (Js.some
    (fun item => Js.of_option
       (Js.optional (productTags item)
          (Js.some (fun tag =>
             Js.Bool (toLowerCase tag =? (trim (toLowerCase (conditionValue rule))))%string))))
    (items context)).
Proof. intros H; at_type H. Qed.

Lemma evaluate_product_vendor :
  conditionType rule = "product_vendor" ->
  evaluateCondition rule context =
  Js.Bool (Js.some
    (fun item => Js.Bool
       (Js.strict_eq (Js.optional (productVendor item) toLowerCase)
                     (trim (toLowerCase (conditionValue rule)))))
    (items context)).
Proof. intros H; at_type H. Qed.

Lemma evaluate_sku_contains :
  conditionType rule = "sku_contains" ->
  evaluateCondition rule context =
  Js.Bool (Js.some
    (fun item => Js.of_option
       (Js.optional (sku item)
          (fun s => includes (toLowerCase s) (trim (toLowerCase (conditionValue rule))))))
    (items context)).
Proof. intros H; at_type H. Qed.

Lemma evaluate_order_value_above :
  conditionType rule = "order_value_above" ->
  evaluateCondition rule context =
  Js.Bool (negb (isNaN (parseFloat (conditionValue rule)))
           && gt (orderValue context) (parseFloat (conditionValue rule))).
Proof. intros H; at_type H. Qed.

Lemma evaluate_order_value_below :
  conditionType rule = "order_value_below" ->
  evaluateCondition rule context =
  Js.Bool (negb (isNaN (parseFloat (conditionValue rule)))
           && lt (orderValue context) (parseFloat (conditionValue rule))).
Proof. intros H; at_type H. Qed.

Lemma evaluate_return_reason :
  conditionType rule = "return_reason" ->
  evaluateCondition rule context =
  Js.Bool (Js.strict_eq (Js.optional (returnReason context) toLowerCase)
                        (trim (toLowerCase (conditionValue rule)))).
Proof. intros H; at_type H. Qed.

Lemma evaluate_customer_tag :
  conditionType rule = "customer_tag" ->
  evaluateCondition rule context =
  Js.nullish
    (Js.of_option
       (Js.optional (customerTags context)
          (Js.some (fun tag =>
             Js.Bool (toLowerCase tag =? (trim (toLowerCase (conditionValue rule))))%string))))
    (Js.Bool false).
Proof. intros H; at_type H. Qed.

Lemma evaluate_unrecognised :
  ~ In (conditionType rule) ConditionType ->
  evaluateCondition rule context = Js.Bool false.
Proof.
  intros H. unfold evaluateCondition.
  repeat match goal with
  | |- context [String.eqb ?a ?b] =>
      destruct (String.eqb_spec a b) as [E | _];
      [ exfalso; apply H; rewrite E; simpl; tauto | ]
  end.
  reflexivity.
Qed.

Lemma evaluate_is_boolean :
  exists b, evaluateCondition rule context = Js.Bool b.
Proof.
  unfold evaluateCondition.
  repeat match goal with
  | |- context [if String.eqb ?a ?b then _ else _] =>
      destruct (String.eqb a b); [ eauto | ]
  end; eauto.
  destruct (customerTags context); simpl; eauto.
Qed.

End EvaluateCases.

Section ArrayFacts.

Context {A : Type}.

Lemma some_true_iff (f : A -> Js.value) (l : list A) :
  Js.some f l = true <-> exists x, In x l /\ Js.ToBoolean (f x) = true.
Proof. unfold Js.some. apply existsb_exists. Qed.

Lemma some_nil (f : A -> Js.value) : Js.some f [] = false.
Proof. reflexivity. Qed.

End ArrayFacts.

(* ===================================================================== *)
(** ** The cases of routing.server.test.ts *)
(* ===================================================================== *)

Module TestCases.

Import Tests.

Example product_type_matches :
  evaluateCondition (mockRule "product_type" "Electronics") baseContext
  = Js.Bool true.
Proof. reflexivity. Qed.

Example product_type_case_insensitive :
  evaluateCondition (mockRule "product_type" "ELECTRONICS") baseContext
  = Js.Bool true.
Proof. reflexivity. Qed.

Example product_type_differs :
  evaluateCondition (mockRule "product_type" "Clothing") baseContext
  = Js.Bool false.
Proof. reflexivity. Qed.

Example product_tag_matches :
  evaluateCondition (mockRule "product_tag" "featured") baseContext
  = Js.Bool true
  /\ evaluateCondition (mockRule "product_tag" "clearance") baseContext
     = Js.Bool false.
Proof. split; reflexivity. Qed.

Example sku_contains_cases :
  evaluateCondition (mockRule "sku_contains" "ELEC") baseContext
  = Js.Bool true
  /\ evaluateCondition (mockRule "sku_contains" "blk") baseContext
     = Js.Bool true
  /\ evaluateCondition (mockRule "sku_contains" "CLOTH") baseContext
     = Js.Bool false.
Proof. repeat split; reflexivity. Qed.

Example order_value_above_cases :
  evaluateCondition (mockRule "order_value_above" "50") baseContext
  = Js.Bool true
  /\ evaluateCondition (mockRule "order_value_above" "100") baseContext
     = Js.Bool false
  /\ evaluateCondition (mockRule "order_value_above" "150") baseContext
     = Js.Bool false
  /\ evaluateCondition (mockRule "order_value_above" "not-a-number")
       baseContext = Js.Bool false.
Proof. repeat split; vm_compute; reflexivity. Qed.

Example order_value_below_cases :
  evaluateCondition (mockRule "order_value_below" "150") baseContext
  = Js.Bool true
  /\ evaluateCondition (mockRule "order_value_below" "100") baseContext
     = Js.Bool false.
Proof. repeat split; vm_compute; reflexivity. Qed.

(** Boundary of the threshold: 100 is not above "100", 100.01 is; a value
    that is not a number never matches. *)
Example order_value_boundary :
  evaluateCondition (mockRule "order_value_above" "100")
    {| orderValue := parseFloat "100"; returnReason := None;
       customerTags := None; items := [] |} = Js.Bool false
  /\ evaluateCondition (mockRule "order_value_above" "100")
       {| orderValue := parseFloat "100.01"; returnReason := None;
          customerTags := None; items := [] |} = Js.Bool true
  /\ parseFloat "not-a-number" = NaN
  /\ parseFloat "100" = of_Z 100
  /\ parseFloat "12.5kg" = S754_finite false 7036874417766400 (-49).
Proof. repeat split; vm_compute; reflexivity. Qed.

Example return_reason_cases :
  evaluateCondition (mockRule "return_reason" "defective") baseContext
  = Js.Bool true
  /\ evaluateCondition (mockRule "return_reason" "DEFECTIVE") baseContext
     = Js.Bool true.
Proof. repeat split; reflexivity. Qed.

Example customer_tag_cases :
  evaluateCondition (mockRule "customer_tag" "vip") baseContext
  = Js.Bool true
  /\ evaluateCondition (mockRule "customer_tag" "new-customer")
       baseContext = Js.Bool false.
Proof. repeat split; reflexivity. Qed.

Example product_vendor_matches :
  evaluateCondition (mockRule "product_vendor" "Acme Corp") baseContext
  = Js.Bool true.
Proof. reflexivity. Qed.

Example unknown_type_is_false :
  evaluateCondition (mockRule "unknown_type" "value") baseContext
  = Js.Bool false.
Proof. reflexivity. Qed.

Example first_matching_rule_by_priority :
  findMatchingDestination byPriorityRules electronicsContext = Some destA.
Proof. vm_compute; reflexivity. Qed.

Example skips_inactive_rules :
  findMatchingDestination inactiveRules electronicsContext = Some destB.
Proof. vm_compute; reflexivity. Qed.

Example no_rules_no_destination :
  findMatchingDestination [] electronicsContext = None.
Proof. reflexivity. Qed.

Example builds_context_without_optional_data :
  buildRoutingContext {| totalValue := of_Z 50; lineItems := [] |}
                      {| reason := None |} None
  = {| orderValue := of_Z 50; returnReason := None;
       customerTags := None; items := [] |}.
Proof. reflexivity. Qed.

End TestCases.

(* ===================================================================== *)
(** ** Properties of the routing engine *)
(* ===================================================================== *)

(** C2. [evaluateCondition] returns a boolean for every rule and every
    context (no field, present or absent, makes it yield [undefined] or
    fail), and a rule whose condition type is not one of the eight
    recognised types evaluates to [false] in every context. *)
Theorem evaluateCondition_total (rule : RoutingRule)
  (context : RoutingContext) :
  (exists b, evaluateCondition rule context = Js.Bool b)
  /\ (~ In (conditionType rule) ConditionType ->
      evaluateCondition rule context = Js.Bool false).
Proof.
  split.
  - apply evaluate_is_boolean.
  - apply evaluate_unrecognised.
Qed.

Lemma evaluateCondition_total_witness :
  ~ In (conditionType (Tests.mockRule "unknown_type" "value")) ConditionType
  /\ evaluateCondition (Tests.mockRule "unknown_type" "value")
       Tests.baseContext = Js.Bool false.
Proof.
  assert (H : ~ In (conditionType (Tests.mockRule "unknown_type" "value"))
                   ConditionType).
  { simpl. intuition discriminate. }
  split; [exact H |].
  exact (proj2 (evaluateCondition_total _ Tests.baseContext) H).
Defined.

(** C3. An [order_value_above] rule is true iff its value parses as a
    number [t] and [orderValue > t]; an [order_value_below] rule is true
    iff its value parses as [t] and [orderValue < t]. For both types the
    result is [false] when the value does not parse and when [orderValue]
    equals the threshold. *)
Theorem order_value_thresholds (rule : RoutingRule)
  (context : RoutingContext) :
  (conditionType rule = "order_value_above" ->
   (evaluateCondition rule context = Js.Bool true <->
    exists t, parses_as (conditionValue rule) t
              /\ gt (orderValue context) t = true))
  /\ (conditionType rule = "order_value_below" ->
      (evaluateCondition rule context = Js.Bool true <->
       exists t, parses_as (conditionValue rule) t
                 /\ lt (orderValue context) t = true))
  /\ (conditionType rule = "order_value_above"
      \/ conditionType rule = "order_value_below" ->
      (isNaN (parseFloat (conditionValue rule)) = true ->
       evaluateCondition rule context = Js.Bool false)
      /\ (eq (orderValue context) (parseFloat (conditionValue rule)) = true ->
          evaluateCondition rule context = Js.Bool false)).
Proof.
  split; [| split].
  - intros H. rewrite (evaluate_order_value_above _ _ H). split.
    + intros E. injection E as E. apply andb_true_iff in E as [E1 E2].
      exists (parseFloat (conditionValue rule)). repeat split; auto.
      now apply negb_true_iff.
    + intros (t & [<- Ht] & Hgt). now rewrite Ht, Hgt.
  - intros H. rewrite (evaluate_order_value_below _ _ H). split.
    + intros E. injection E as E. apply andb_true_iff in E as [E1 E2].
      exists (parseFloat (conditionValue rule)). repeat split; auto.
      now apply negb_true_iff.
    + intros (t & [<- Ht] & Hlt). now rewrite Ht, Hlt.
  - intros [H | H];
      [ rewrite (evaluate_order_value_above _ _ H)
      | rewrite (evaluate_order_value_below _ _ H) ];
      (split; [ intros ->; reflexivity | intros E ]).
    + now rewrite (eq_not_gt _ _ E), andb_false_r.
    + now rewrite (eq_not_lt _ _ E), andb_false_r.
Qed.

Lemma order_value_thresholds_witness :
  conditionType (Tests.mockRule "order_value_above" "50")
  = "order_value_above"
  /\ (evaluateCondition (Tests.mockRule "order_value_above" "50")
        Tests.baseContext = Js.Bool true <->
      exists t, parses_as "50" t
                /\ gt (orderValue Tests.baseContext) t = true).
Proof.
  split; [reflexivity |].
  exact (proj1 (order_value_thresholds
                  (Tests.mockRule "order_value_above" "50")
                  Tests.baseContext) eq_refl).
Defined.

(** C5. For a [customer_tag] rule: with [customerTags] unset the result is
    [false]; with [customerTags] set the result is true iff some tag,
    lower-cased, equals the lower-cased and trimmed condition value; an
    empty tag list gives [false] as well. The context builder leaves
    missing customer tags unset. *)
Theorem customer_tag_semantics (rule : RoutingRule)
  (context : RoutingContext) (orderData : OrderData)
  (returnData : ReturnData) :
  conditionType rule = "customer_tag" ->
  (customerTags context = None ->
   evaluateCondition rule context = Js.Bool false)
  /\ (forall tags', customerTags context = Some tags' ->
      (evaluateCondition rule context = Js.Bool true <->
       exists tag, In tag tags'
                   /\ toLowerCase tag
                      = trim (toLowerCase (conditionValue rule))))
  /\ (customerTags context = Some [] ->
      evaluateCondition rule context = Js.Bool false)
  /\ customerTags (buildRoutingContext orderData returnData None) = None
  /\ customerTags (buildRoutingContext orderData returnData
                     (Some {| tags := None |})) = None.
Proof.
  intros H. rewrite (evaluate_customer_tag _ _ H).
  split; [intros ->; reflexivity |].
  split; [| split; [intros ->; reflexivity | split; reflexivity]].
  intros tags' Ht. rewrite Ht. simpl. split.
  - intros E. injection E as E.
    apply some_true_iff in E as (tag & Hin & E). simpl in E.
    exists tag. split; auto. now apply String.eqb_eq.
  - intros (tag & Hin & E). f_equal.
    apply some_true_iff. exists tag. split; auto. simpl.
    now apply String.eqb_eq.
Qed.

Lemma customer_tag_semantics_witness :
  conditionType (Tests.mockRule "customer_tag" "vip") = "customer_tag"
  /\ (evaluateCondition (Tests.mockRule "customer_tag" "vip")
        Tests.baseContext = Js.Bool true <->
      exists tag, In tag ["vip"; "wholesale"]
                  /\ toLowerCase tag = trim (toLowerCase "vip")).
Proof.
  split; [reflexivity |].
  exact (proj1 (proj2 (customer_tag_semantics
                         (Tests.mockRule "customer_tag" "vip")
                         Tests.baseContext
                         {| totalValue := of_Z 50; lineItems := [] |}
                         {| reason := None |} eq_refl))
               ["vip"; "wholesale"] eq_refl).
Defined.

(** C9. The result of [evaluateCondition] depends on the rule only through
    [conditionType] and [conditionValue]: rules that differ in [id],
    [shop], [name], [priority], [isActive] or [destinationId] evaluate
    alike, so an inactive rule evaluates as its active twin does. *)
Theorem evaluateCondition_condition_only
  (id1 id2 shop1 shop2 name1 name2 : string) (priority1 priority2 : Z)
  (isActive1 isActive2 : bool) (destinationId1 destinationId2 : string)
  (type value : string) (context : RoutingContext) :
  evaluateCondition
    {| id := id1; shop := shop1; name := name1; priority := priority1;
       isActive := isActive1; conditionType := type;
       conditionValue := value; destinationId := destinationId1 |} context
  = evaluateCondition
      {| id := id2; shop := shop2; name := name2; priority := priority2;
         isActive := isActive2; conditionType := type;
         conditionValue := value; destinationId := destinationId2 |}
      context.
Proof. reflexivity. Qed.

(** C10. For a [sku_contains] rule whose condition value is empty or all
    white space, the result is true iff some item of the context has its
    [sku] present. *)
Theorem sku_contains_blank_value (rule : RoutingRule)
  (context : RoutingContext) :
  conditionType rule = "sku_contains" ->
  blank (conditionValue rule) ->
  (evaluateCondition rule context = Js.Bool true <->
   exists item, In item (items context) /\ sku item <> None).
Proof.
  intros H Hb. rewrite (evaluate_sku_contains _ _ H).
  rewrite (normalized_blank _ Hb). split.
  - intros E. injection E as E.
    apply some_true_iff in E as (item & Hin & E).
    exists item. split; auto. destruct (sku item); [discriminate | discriminate E].
  - intros (item & Hin & Hs). f_equal. apply some_true_iff.
    exists item. split; auto.
    destruct (sku item) as [s |]; [| congruence].
    simpl. apply includes_empty.
Qed.

Lemma sku_contains_blank_value_witness :
  conditionType (Tests.mockRule "sku_contains" "  ") = "sku_contains"
  /\ blank "  "
  /\ (evaluateCondition (Tests.mockRule "sku_contains" "  ")
        Tests.baseContext = Js.Bool true <->
      exists item, In item (items Tests.baseContext) /\ sku item <> None).
Proof.
  assert (Hb : blank "  ") by (repeat constructor).
  split; [reflexivity | split; [exact Hb |]].
  exact (sku_contains_blank_value (Tests.mockRule "sku_contains" "  ")
           Tests.baseContext eq_refl Hb).
Defined.

Section CaseInsensitivity.

Lemma some_Forall2 {A B : Type} (R : A -> B -> Prop)
  (f : A -> Js.value) (g : B -> Js.value) (l : list A) (l' : list B) :
  Forall2 R l l' ->
  (forall x y, R x y -> Js.ToBoolean (f x) = Js.ToBoolean (g y)) ->
  Js.some f l = Js.some g l'.
Proof.
  intros HF Hfg. induction HF as [| x y l l' Hxy _ IH]; simpl.
  - reflexivity.
  - now rewrite (Hfg _ _ Hxy), IH.
Qed.

Lemma optional_lower_variant (x y : option string) :
  opt_variant same_lower x y ->
  Js.optional x toLowerCase = Js.optional y toLowerCase.
Proof.
  destruct x, y; simpl; try tauto.
  unfold same_lower. now intros ->.
Qed.

Lemma tags_variant (v : string) (x y : option (list string)) :
  opt_variant (Forall2 same_lower) x y ->
  Js.optional x
    (Js.some (fun tag => Js.Bool (toLowerCase tag =? v)%string))
  = Js.optional y
      (Js.some (fun tag => Js.Bool (toLowerCase tag =? v)%string)).
Proof.
  destruct x, y; simpl; try tauto.
  intros H. f_equal. apply (some_Forall2 _ _ _ _ _ H).
  intros s t Hst. simpl. unfold same_lower in Hst. now rewrite Hst.
Qed.

Lemma sku_variant (v : string) (x y : option string) :
  opt_variant same_lower x y ->
  Js.optional x (fun s => includes (toLowerCase s) v)
  = Js.optional y (fun s => includes (toLowerCase s) v).
Proof.
  destruct x, y; simpl; try tauto.
  unfold same_lower. now intros ->.
Qed.

End CaseInsensitivity.

(** C4, as amended. For the six string-valued condition types the result
    does not change when the rule's condition value and the string fields
    of the context are replaced by strings with the same lower-case forms
    ([toLowerCase] images): the evaluator sees these strings through
    [toLowerCase] only. *)
Theorem string_matching_by_lower_case (rule rule' : RoutingRule)
  (context context' : RoutingContext) :
  In (conditionType rule) string_valued ->
  conditionType rule' = conditionType rule ->
  same_lower (conditionValue rule) (conditionValue rule') ->
  context_variant context context' ->
  evaluateCondition rule context = evaluateCondition rule' context'.
Proof.
  intros Hin Ht Hn [Ho Hr Hc Hi]. unfold same_lower in Hn.
  simpl in Hin.
  destruct Hin as [H | [H | [H | [H | [H | [H | []]]]]]];
    symmetry in H; pose proof H as H'; rewrite <- Ht in H'.
  - rewrite (evaluate_product_type _ _ H), (evaluate_product_type _ _ H').
    rewrite Hn. f_equal. apply (some_Forall2 _ _ _ _ _ Hi).
    intros i j [Hp _ _ _]. simpl.
    now rewrite (optional_lower_variant _ _ Hp).
  - rewrite (evaluate_product_tag _ _ H), (evaluate_product_tag _ _ H').
    rewrite Hn. f_equal. apply (some_Forall2 _ _ _ _ _ Hi).
    intros i j [_ Hp _ _]. now rewrite (tags_variant _ _ _ Hp).
  - rewrite (evaluate_product_vendor _ _ H),
      (evaluate_product_vendor _ _ H').
    rewrite Hn. f_equal. apply (some_Forall2 _ _ _ _ _ Hi).
    intros i j [_ _ Hp _]. simpl.
    now rewrite (optional_lower_variant _ _ Hp).
  - rewrite (evaluate_sku_contains _ _ H), (evaluate_sku_contains _ _ H').
    rewrite Hn. f_equal. apply (some_Forall2 _ _ _ _ _ Hi).
    intros i j [_ _ _ Hp]. now rewrite (sku_variant _ _ _ Hp).
  - rewrite (evaluate_return_reason _ _ H), (evaluate_return_reason _ _ H').
    now rewrite Hn, (optional_lower_variant _ _ Hr).
  - rewrite (evaluate_customer_tag _ _ H), (evaluate_customer_tag _ _ H').
    now rewrite Hn, (tags_variant _ _ _ Hc).
Qed.

Lemma string_matching_by_lower_case_witness :
  In (conditionType (Tests.mockRule "sku_contains" "Elec")) string_valued
  /\ same_lower "Elec" "eLEC"
  /\ context_variant Tests.baseContext Tests.shoutedContext
  /\ evaluateCondition (Tests.mockRule "sku_contains" "Elec")
       Tests.baseContext
     = evaluateCondition (Tests.mockRule "sku_contains" "eLEC")
         Tests.shoutedContext.
Proof.
  assert (H1 : In (conditionType (Tests.mockRule "sku_contains" "Elec"))
                  string_valued) by (simpl; tauto).
  assert (H2 : same_lower "Elec" "eLEC") by reflexivity.
  assert (H3 : context_variant Tests.baseContext Tests.shoutedContext).
  { constructor; simpl; [ reflexivity | reflexivity | | ].
    - repeat (constructor; [ reflexivity | ]). constructor.
    - constructor; [| constructor].
      constructor; simpl; [ reflexivity | | reflexivity | reflexivity ].
      repeat (constructor; [ reflexivity | ]). constructor. }
  split; [exact H1 | split; [exact H2 | split; [exact H3 |]]].
  exact (string_matching_by_lower_case
           (Tests.mockRule "sku_contains" "Elec")
           (Tests.mockRule "sku_contains" "eLEC")
           Tests.baseContext Tests.shoutedContext H1 eq_refl H2 H3).
Defined.

(** C4, as first stated, fails. The upper-case form of the word written
    s, t, r, a, sharp s, e is STRASSE, so the two differ only in case; yet
    a [product_type] rule with the first as its value matches an item of
    that product type, and the same rule with STRASSE as its value does
    not: the lower-case form of STRASSE has two letters s where the other
    has the sharp s. *)
Lemma string_matching_case_counterexample :
  In (conditionType (Tests.mockRule "product_type" Tests.strasse))
     string_valued
  /\ differ_only_in_case Tests.strasse "STRASSE"
  /\ evaluateCondition (Tests.mockRule "product_type" Tests.strasse)
       Tests.strasseContext = Js.Bool true
  /\ evaluateCondition (Tests.mockRule "product_type" "STRASSE")
       Tests.strasseContext = Js.Bool false.
Proof.
  split; [simpl; tauto |].
  split; [right; reflexivity |].
  split; reflexivity.
Qed.

(** [Js.sort by_priority] is a stable sort by priority, and there is only
    one. *)
Section SortByPriority.

Lemma sort_insert_perm (x : RuleWithDestination) (l : list RuleWithDestination) :
  Permutation (x :: l) (Js.sort_insert by_priority x l).
Proof.
  induction l as [| y l IH]; simpl.
  - apply Permutation_refl.
  - destruct (by_priority x y <=? 0).
    + apply Permutation_refl.
    + apply perm_trans with (y :: x :: l).
      * apply perm_swap.
      * now apply perm_skip.
Qed.

Lemma sort_perm (l : list RuleWithDestination) : Permutation l (Js.sort by_priority l).
Proof.
  induction l as [| x l IH]; simpl.
  - apply perm_nil.
  - apply perm_trans with (x :: Js.sort by_priority l).
    + now apply perm_skip.
    + apply sort_insert_perm.
Qed.

Lemma sort_insert_sorted (x : RuleWithDestination) (l : list RuleWithDestination) :
  StronglySorted priority_le l ->
  StronglySorted priority_le (Js.sort_insert by_priority x l).
Proof.
  induction 1 as [| y l Hs IH Hy]; simpl.
  - repeat constructor.
  - unfold by_priority at 1.
    destruct (Z.leb_spec (priority x - priority y) 0) as [Hle | Hgt].
    + constructor.
      * now constructor.
      * constructor.
        -- unfold priority_le; lia.
        -- eapply Forall_impl; [| exact Hy].
           unfold priority_le; intros z Hz; lia.
    + constructor; [exact IH |].
      apply (Permutation_Forall (sort_insert_perm x l)).
      constructor; [unfold priority_le; lia | exact Hy].
Qed.

Lemma sort_sorted (l : list RuleWithDestination) :
  StronglySorted priority_le (Js.sort by_priority l).
Proof.
  induction l as [| x l IH]; simpl.
  - constructor.
  - now apply sort_insert_sorted.
Qed.

Lemma sort_insert_with_priority (p : Z) (x : RuleWithDestination)
  (l : list RuleWithDestination) :
  with_priority p (Js.sort_insert by_priority x l)
  = with_priority p (x :: l).
Proof.
  induction l as [| y l IH]; simpl.
  - reflexivity.
  - unfold by_priority at 1.
    destruct (Z.leb_spec (priority x - priority y) 0) as [Hle | Hgt].
    + reflexivity.
    + unfold with_priority in *. simpl in *. rewrite IH.
      destruct (Z.eqb_spec (priority x) p), (Z.eqb_spec (priority y) p);
        try reflexivity; lia.
Qed.

Lemma sort_with_priority (p : Z) (l : list RuleWithDestination) :
  with_priority p (Js.sort by_priority l) = with_priority p l.
Proof.
  induction l as [| x l IH]; simpl.
  - reflexivity.
  - rewrite sort_insert_with_priority. unfold with_priority in *.
    simpl. now rewrite IH.
Qed.

Lemma sort_is_stable_sort (l : list RuleWithDestination) :
  stable_sort_by_priority l (Js.sort by_priority l).
Proof.
  split; [apply sort_perm | split; [apply sort_sorted |]].
  intros p. apply sort_with_priority.
Qed.

Lemma with_priority_above (p : Z) (y : RuleWithDestination) (l : list RuleWithDestination) :
  p < priority y -> Forall (priority_le y) l ->
  with_priority p (y :: l) = [].
Proof.
  intros Hp Hl. unfold with_priority. simpl.
  destruct (Z.eqb_spec (priority y) p); [lia |].
  induction Hl as [| z l Hz _ IH]; simpl; [reflexivity |].
  unfold priority_le in Hz.
  destruct (Z.eqb_spec (priority z) p); [lia | exact IH].
Qed.

Lemma with_priority_head (x : RuleWithDestination) (l : list RuleWithDestination) :
  with_priority (priority x) (x :: l)
  = x :: with_priority (priority x) l.
Proof. unfold with_priority. simpl. now rewrite Z.eqb_refl. Qed.

Lemma sorted_classes_unique (s1 s2 : list RuleWithDestination) :
  StronglySorted priority_le s1 -> StronglySorted priority_le s2 ->
  (forall p, with_priority p s1 = with_priority p s2) ->
  s1 = s2.
Proof.
  intros H1. revert s2.
  induction H1 as [| x t1 Ht1 IH Hx]; intros s2 H2 Hc.
  - destruct s2 as [| y t2]; [reflexivity |].
    specialize (Hc (priority y)). rewrite with_priority_head in Hc.
    discriminate.
  - destruct s2 as [| y t2].
    { specialize (Hc (priority x)). rewrite with_priority_head in Hc.
      discriminate. }
    inversion H2 as [| ? ? Ht2 Hy]; subst.
    assert (Hp : priority x = priority y).
    { destruct (Z.lt_total (priority x) (priority y)) as [Hlt | [E | Hlt]];
        [| exact E |]; exfalso.
      - specialize (Hc (priority x)).
        rewrite with_priority_head, (with_priority_above _ _ _ Hlt Hy)
          in Hc.
        discriminate.
      - specialize (Hc (priority y)).
        rewrite (with_priority_head y),
          (with_priority_above _ _ _ Hlt Hx) in Hc.
        discriminate. }
    pose proof (Hc (priority x)) as Hh.
    rewrite with_priority_head, Hp, with_priority_head in Hh.
    injection Hh as -> Hh. f_equal. apply IH; [exact Ht2 |].
    intros p. destruct (Z.eq_dec p (priority y)) as [-> | Hne].
    + exact Hh.
    + specialize (Hc p). unfold with_priority in *. simpl in Hc.
      destruct (Z.eqb_spec (priority y) p); [congruence | exact Hc].
Qed.

Lemma stable_sort_unique (l s1 s2 : list RuleWithDestination) :
  stable_sort_by_priority l s1 -> stable_sort_by_priority l s2 ->
  s1 = s2.
Proof.
  intros (_ & Hs1 & Hc1) (_ & Hs2 & Hc2).
  apply sorted_classes_unique; auto.
  intros p. now rewrite Hc1, Hc2.
Qed.

Lemma matches_ToBoolean (context : RoutingContext) (r : RoutingRule) :
  matches context r = Js.ToBoolean (evaluateCondition r context).
Proof.
  unfold matches. now destruct (evaluateCondition r context) as [| []].
Qed.

Lemma first_match_find (l : list RuleWithDestination) (context : RoutingContext) :
  first_match l context = first_matching_destination l context.
Proof.
  unfold first_matching_destination.
  induction l as [| r l IH]; simpl.
  - reflexivity.
  - rewrite matches_ToBoolean.
    now destruct (Js.ToBoolean (evaluateCondition r context)).
Qed.

End SortByPriority.

(** C1. [findMatchingDestination] computes what the reference algorithm
    prescribes: keep the active rules, sort them ascending by priority
    with a stable sort, and return the destination of the first rule whose
    condition is true, null when there is none. The reference algorithm
    has exactly one outcome, and it is the function's result; with no
    active matching rule, and so with no rule at all, the result is
    null. *)
Theorem findMatchingDestination_reference
  (rules : list RuleWithDestination) (context : RoutingContext) :
  reference_selection rules context (findMatchingDestination rules context)
  /\ (forall result,
        reference_selection rules context result ->
        result = findMatchingDestination rules context)
  /\ ((forall r : RuleWithDestination,
         In r rules -> isActive r = true -> matches context r = false) ->
      findMatchingDestination rules context = None).
Proof.
  unfold findMatchingDestination. rewrite first_match_find.
  split; [| split].
  - eexists. split; [apply sort_is_stable_sort | reflexivity].
  - intros result (sorted & Hs & ->).
    now rewrite (stable_sort_unique _ _ _ Hs (sort_is_stable_sort _)).
  - intros Hno. unfold first_matching_destination.
    destruct (find _ _) as [r |] eqn:E; [| reflexivity].
    apply find_some in E as [Hin Hm].
    apply (Permutation_in _ (Permutation_sym (sort_perm _))) in Hin.
    apply filter_In in Hin as [Hin Ha].
    rewrite (Hno r Hin Ha) in Hm. discriminate.
Qed.

Lemma findMatchingDestination_reference_witness :
  reference_selection Tests.byPriorityRules Tests.electronicsContext
    (Some Tests.destA)
  /\ Some Tests.destA
     = findMatchingDestination Tests.byPriorityRules
         Tests.electronicsContext.
Proof.
  assert (H : reference_selection Tests.byPriorityRules
                Tests.electronicsContext (Some Tests.destA)).
  { exists (rev Tests.byPriorityRules). split.
    - split; [| split].
      + apply perm_swap.
      + repeat constructor; unfold priority_le; simpl; lia.
      + intros p. unfold with_priority. simpl.
        destruct p as [| q |]; try reflexivity.
        destruct q as [[] | [] |]; reflexivity.
    - vm_compute. reflexivity. }
  split; [exact H |].
  exact (proj1 (proj2 (findMatchingDestination_reference
                         Tests.byPriorityRules Tests.electronicsContext))
               (Some Tests.destA) H).
Defined.

Section FirstMatch.

Lemma matches_true (context : RoutingContext) (r : RoutingRule) :
  matches context r = true <-> evaluateCondition r context = Js.Bool true.
Proof.
  unfold matches.
  destruct (evaluateCondition r context) as [| []];
    split; congruence.
Qed.

Lemma first_match_split (l : list RuleWithDestination)
  (context : RoutingContext) :
  (exists r : RuleWithDestination, In r l /\ matches context r = true) ->
  exists before r after,
    l = (before ++ r :: after)%list
    /\ (forall x : RuleWithDestination,
          In x before -> matches context x = false)
    /\ matches context r = true
    /\ first_match l context = destination r.
Proof.
  induction l as [| y l IH]; intros (r & Hin & Hm).
  - destruct Hin.
  - destruct (matches context y) eqn:Ey.
    + exists [], y, l. repeat split; auto.
      * intros x [].
      * simpl. now rewrite <- matches_ToBoolean, Ey.
    + destruct Hin as [-> | Hin]; [congruence |].
      destruct IH as (before & r0 & after & -> & Hb & Hr & Hf);
        [now exists r |].
      exists (y :: before), r0, after. repeat split; auto.
      * intros x [<- | Hx]; auto.
      * simpl. now rewrite <- matches_ToBoolean, Ey.
Qed.

End FirstMatch.

(** C8. When some active rule matches, [findMatchingDestination] returns
    the [destination] field of the first matching rule, in the order of
    the stable sort by priority, exactly as it is: a missing (null)
    destination is returned as null, and later rules are not consulted. *)
Theorem findMatchingDestination_verbatim
  (rules : list RuleWithDestination) (context : RoutingContext) :
  (exists r : RuleWithDestination,
     In r rules /\ isActive r = true
     /\ evaluateCondition r context = Js.Bool true) ->
  exists before r after,
    stable_sort_by_priority
      (filter (fun r : RuleWithDestination => isActive r) rules)
      (before ++ r :: after)%list
    /\ (forall x : RuleWithDestination,
          In x before -> evaluateCondition x context = Js.Bool false)
    /\ evaluateCondition r context = Js.Bool true
    /\ findMatchingDestination rules context = destination r
    /\ (destination r = None ->
        findMatchingDestination rules context = None).
Proof.
  intros (r & Hin & Ha & He).
  destruct (first_match_split
              (Js.sort by_priority
                 (filter (fun r : RuleWithDestination => isActive r) rules))
              context)
    as (before & r0 & after & Hs & Hb & Hr & Hf).
  { exists r. split; [| now apply matches_true].
    apply (Permutation_in _ (sort_perm _)).
    apply filter_In. now split. }
  exists before, r0, after. rewrite <- Hs.
  split; [apply sort_is_stable_sort |].
  split; [| split; [now apply matches_true | split]].
  - intros x Hx. specialize (Hb x Hx).
    destruct (evaluate_is_boolean x context) as [[] E]; [| exact E].
    apply matches_true in E. congruence.
  - exact Hf.
  - intros <-. exact Hf.
Qed.

Lemma findMatchingDestination_verbatim_witness :
  (exists r : RuleWithDestination,
     In r Tests.danglingRules /\ isActive r = true
     /\ evaluateCondition r Tests.electronicsContext = Js.Bool true)
  /\ exists before r after,
       stable_sort_by_priority
         (filter (fun r : RuleWithDestination => isActive r)
                 Tests.danglingRules)
         (before ++ r :: after)%list
       /\ (forall x : RuleWithDestination,
             In x before ->
             evaluateCondition x Tests.electronicsContext = Js.Bool false)
       /\ evaluateCondition r Tests.electronicsContext = Js.Bool true
       /\ findMatchingDestination Tests.danglingRules
            Tests.electronicsContext = destination r
       /\ (destination r = None ->
           findMatchingDestination Tests.danglingRules
             Tests.electronicsContext = None).
Proof.
  assert (H : exists r : RuleWithDestination,
     In r Tests.danglingRules /\ isActive r = true
     /\ evaluateCondition r Tests.electronicsContext = Js.Bool true).
  { eexists. split; [left; reflexivity | split; vm_compute; reflexivity]. }
  split; [exact H |].
  exact (findMatchingDestination_verbatim Tests.danglingRules
           Tests.electronicsContext H).
Defined.

(** The rule after the dangling one matches and has a destination, yet
    the selector answers null. *)
Example dangling_destination_is_returned :
  findMatchingDestination Tests.danglingRules Tests.electronicsContext = None
  /\ findMatchingDestination (tl Tests.danglingRules)
       Tests.electronicsContext = Some Tests.destB.
Proof. split; vm_compute; reflexivity. Qed.

(** The text of the issues: which can coincide. *)
Section IssueTexts.

Lemma append_length (a b : string) :
  String.length (a ++ b) = (String.length a + String.length b)%nat.
Proof. induction a; simpl; auto. Qed.

Lemma append_inj_l (s a b : string) : s ++ a = s ++ b -> a = b.
Proof.
  induction s as [| c s IH]; simpl; intros H; [exact H |].
  injection H as H. auto.
Qed.

Lemma append_inj_r (t a b : string) : a ++ t = b ++ t -> a = b.
Proof.
  revert b. induction a as [| c a IH]; intros [| d b] H; simpl in H.
  - reflexivity.
  - apply (f_equal String.length) in H. simpl in H.
    rewrite append_length in H. lia.
  - apply (f_equal String.length) in H. simpl in H.
    rewrite append_length in H. lia.
  - injection H as -> H. f_equal. now apply IH.
Qed.

Lemma string_of_Z_inj (p q : Z) :
  Js.string_of_Z p = Js.string_of_Z q -> p = q.
Proof.
  unfold Js.string_of_Z. intros H.
  apply DecimalZ.to_int_inj.
  apply (f_equal NilEmpty.int_of_string) in H.
  rewrite !NilEmpty.isi in H. now injection H.
Qed.

Lemma duplicate_priority_issue_inj (p q : Z) :
  duplicate_priority_issue p = duplicate_priority_issue q -> p = q.
Proof.
  unfold duplicate_priority_issue. intros H.
  apply append_inj_l, append_inj_r in H. now apply string_of_Z_inj.
Qed.

Lemma initial_deleted (n : string) :
  initial (deleted_destination_issue n) = Some "R"%char.
Proof. reflexivity. Qed.

Lemma initial_invalid (n v : string) :
  initial (invalid_numeric_issue n v) = Some "R"%char.
Proof. reflexivity. Qed.

Lemma initial_duplicate (p : Z) :
  initial (duplicate_priority_issue p) = Some "M"%char.
Proof. reflexivity. Qed.

End IssueTexts.

(** The loops of the validator only append. *)
Section ValidatorLoops.

Lemma fold_left_appends {A B : Type} (f : list B -> A -> list B)
  (g : A -> list B) :
  (forall acc x, f acc x = (acc ++ g x)%list) ->
  forall l acc, fold_left f l acc = (acc ++ flat_map g l)%list.
Proof.
  intros Hf. induction l as [| x l IH]; intros acc; simpl.
  - now rewrite app_nil_r.
  - now rewrite IH, Hf, <- app_assoc.
Qed.

Lemma push_if_app (c : bool) (x : string) (acc : list string) :
  push_if c x acc = (acc ++ push_if c x [])%list.
Proof. destruct c; simpl; [reflexivity | now rewrite app_nil_r]. Qed.

Lemma check_rule_app (acc : list string) (r : RuleWithDestination) :
  check_rule acc r = (acc ++ check_rule [] r)%list.
Proof.
  unfold check_rule.
  destruct (_ || _); [rewrite push_if_app, (push_if_app _ _ (push_if _ _ [])) |];
    rewrite (push_if_app _ _ acc); now rewrite ?app_assoc.
Qed.

Lemma check_count_app (acc : list string) (e : Z * Z) :
  check_count acc e = (acc ++ check_count [] e)%list.
Proof. destruct e as [p c]. apply push_if_app. Qed.

Lemma check_rule_initial (r : RuleWithDestination) (x : string) :
  In x (check_rule [] r) -> initial x = Some "R"%char.
Proof.
  unfold check_rule, push_if.
  destruct (destination r); destruct (_ || _); try destruct (isNaN _);
    simpl; intuition (subst; reflexivity).
Qed.

Lemma check_count_In (e : Z * Z) (x : string) :
  In x (check_count [] e) <->
  x = duplicate_priority_issue (fst e) /\ 1 < snd e.
Proof.
  destruct e as [p c]. unfold check_count, push_if. simpl.
  destruct (Z.ltb_spec 1 c); simpl; intuition (auto; lia).
Qed.

(** The issues of [validate], loop by loop. *)
Lemma validate_issues (rules : list RuleWithDestination)
  (destinations : list ReturnDestination) :
  issues (validate rules destinations)
  = (push_if (Nat.eqb (List.length destinations) 0)
             no_destinations_issue []
     ++ push_if (negb (existsb isDefault destinations)
                 && Nat.ltb 0 (List.length destinations))
                no_default_issue []
     ++ flat_map (check_rule []) rules
     ++ flat_map (check_count [])
          (fold_left count_priority
             (filter (fun r : RuleWithDestination => isActive r) rules)
             []))%list.
Proof.
  unfold validate. simpl.
  rewrite (fold_left_appends _ _ check_count_app).
  rewrite (fold_left_appends _ _ check_rule_app).
  rewrite (push_if_app _ no_default_issue).
  now rewrite <- !app_assoc.
Qed.

End ValidatorLoops.

(** The counts held by [priorityCounts]. *)
Section PriorityCounts.

Lemma map_get_set (m : Js.Map) (k v k' : Z) :
  Js.map_get (Js.map_set m k v) k'
  = if k =? k' then Some v else Js.map_get m k'.
Proof.
  induction m as [| [a b] m IH]; simpl.
  - reflexivity.
  - destruct (Z.eqb_spec a k) as [-> | Hak]; simpl.
    + now destruct (k =? k').
    + rewrite IH.
      destruct (Z.eqb_spec a k'), (Z.eqb_spec k k'); congruence.
Qed.

Lemma map_set_keys (m : Js.Map) (k v x : Z) :
  In x (map fst (Js.map_set m k v)) <-> x = k \/ In x (map fst m).
Proof.
  induction m as [| [a b] m IH]; simpl.
  - intuition.
  - destruct (Z.eqb_spec a k) as [-> | Hak]; simpl.
    + intuition.
    + rewrite IH. intuition.
Qed.

Lemma map_set_NoDup (m : Js.Map) (k v : Z) :
  NoDup (map fst m) -> NoDup (map fst (Js.map_set m k v)).
Proof.
  induction m as [| [a b] m IH]; simpl; intros H.
  - repeat constructor. intros [].
  - inversion H as [| ? ? Hn Hd]; subst.
    destruct (Z.eqb_spec a k) as [-> | Hak]; simpl.
    + now constructor.
    + constructor; auto. rewrite map_set_keys. intuition.
Qed.

Lemma map_get_In (m : Js.Map) (k v : Z) :
  NoDup (map fst m) -> (In (k, v) m <-> Js.map_get m k = Some v).
Proof.
  induction m as [| [a b] m IH]; simpl; intros H.
  - split; [intros [] | discriminate].
  - inversion H as [| ? ? Hn Hd]; subst.
    destruct (Z.eqb_spec a k) as [-> | Hak].
    + split.
      * intros [E | Hin]; [congruence |].
        exfalso. apply Hn. now apply (in_map fst) in Hin.
      * intros E. left. congruence.
    + rewrite <- (IH Hd). split; [| tauto].
      intros [E | Hin]; [congruence | exact Hin].
Qed.

Lemma counts_NoDup (l : list RuleWithDestination) (m : Js.Map) :
  NoDup (map fst m) -> NoDup (map fst (fold_left count_priority l m)).
Proof.
  revert m. induction l as [| x l IH]; intros m H; simpl; auto.
  apply IH. now apply map_set_NoDup.
Qed.

Lemma counts_get (l : list RuleWithDestination) (m : Js.Map) (p : Z) :
  Js.map_get (fold_left count_priority l m) p
  = let n := Z.of_nat (List.length (with_priority p l)) in
    if n =? 0 then Js.map_get m p
    else Some (Js.or_zero (Js.map_get m p) + n).
Proof.
  revert m. induction l as [| x l IH]; intros m; simpl.
  - reflexivity.
  - rewrite IH. unfold count_priority. rewrite map_get_set.
    unfold with_priority. simpl.
    destruct (Z.eqb_spec (priority x) p) as [-> | Hne]; simpl List.length.
    + set (n := List.length _).
      destruct (Z.eqb_spec (Z.of_nat n) 0) as [E | E];
        destruct (Z.eqb_spec (Z.of_nat (S n)) 0); try lia;
        simpl Js.or_zero; f_equal; lia.
    + reflexivity.
Qed.

Lemma filter_twice {A : Type} (f g : A -> bool) (l : list A) :
  filter g (filter f l) = filter (fun x => f x && g x) l.
Proof.
  induction l as [| x l IH]; simpl; [reflexivity |].
  destruct (f x); simpl; [destruct (g x) |]; now rewrite IH.
Qed.

Lemma counts_entry (rules : list RuleWithDestination) (p c : Z) :
  In (p, c)
     (fold_left count_priority
        (filter (fun r : RuleWithDestination => isActive r) rules) [])
  <-> c = Z.of_nat (active_with_priority p rules) /\ 0 < c.
Proof.
  rewrite map_get_In by (apply counts_NoDup; constructor).
  rewrite counts_get. unfold with_priority. rewrite filter_twice.
  fold (active_with_priority p rules). simpl.
  destruct (Z.eqb_spec (Z.of_nat (active_with_priority p rules)) 0).
  - split; [discriminate | lia].
  - split; [intros E; injection E as <-; lia | intros [-> _]; reflexivity].
Qed.

End PriorityCounts.

(** Membership in the issues of [validate]. *)
Section ValidateMembership.

Variables (rules : list RuleWithDestination)
          (destinations : list ReturnDestination).

Lemma or_iff_both (P P' Q Q' : Prop) :
  (P <-> P') -> (Q <-> Q') -> (P \/ Q <-> P' \/ Q').
Proof. tauto. Qed.

Lemma validate_In (x : string) :
  In x (issues (validate rules destinations)) <->
  (x = no_destinations_issue /\ destinations = [])
  \/ (x = no_default_issue /\ destinations <> []
      /\ existsb isDefault destinations = false)
  \/ (exists r, In r rules /\ In x (check_rule [] r))
  \/ (exists p, x = duplicate_priority_issue p
                /\ (1 < active_with_priority p rules)%nat).
Proof.
  rewrite validate_issues, !in_app_iff, !in_flat_map.
  apply or_iff_both.
  - destruct destinations; simpl; intuition congruence.
  - apply or_iff_both.
    + destruct destinations as [| d ds]; simpl.
      * intuition congruence.
      * destruct (isDefault d || existsb isDefault ds); simpl;
          intuition congruence.
    + apply or_iff_both; [tauto |]. split.
      * intros ([p c] & Hin & Hx).
        apply check_count_In in Hx as [-> Hc]. simpl in *.
        apply counts_entry in Hin as [-> _]. exists p. split; auto. lia.
      * intros (p & -> & Hc).
        exists (p, Z.of_nat (active_with_priority p rules)). split.
        -- apply counts_entry. split; auto. lia.
        -- apply check_count_In. simpl. split; auto. lia.
Qed.

Lemma validate_valid :
  valid (validate rules destinations) = true
  <-> issues (validate rules destinations) = [].
Proof.
  unfold validate. cbv zeta. cbn [valid issues].
  rewrite Nat.eqb_eq. apply length_zero_iff_nil.
Qed.

End ValidateMembership.

Lemma existsb_false_iff {A : Type} (f : A -> bool) (l : list A) :
  existsb f l = false <-> forall x, In x l -> f x = false.
Proof.
  induction l as [| y l IH]; simpl.
  - split; [intros _ x [] | reflexivity].
  - rewrite orb_false_iff, IH. split.
    + intros [Hy Hl] x [<- | Hx]; auto.
    + intros H. split; auto.
Qed.

Ltac by_initial H :=
  apply (f_equal initial) in H;
  rewrite ?initial_duplicate, ?initial_deleted, ?initial_invalid in H;
  discriminate H.

(** C6. The validator reports a duplicate priority [p] iff more than one
    active rule of the shop has priority [p] (inactive rules are not
    counted), and [valid] is true iff there is no issue. *)
Theorem duplicate_priority_reported (db : Db) (shop' : string) (p : Z) :
  (In (duplicate_priority_issue p) (issues (validateRoutingRules db shop'))
   <-> (1 < active_with_priority p (routingRule_findMany db shop'))%nat)
  /\ (valid (validateRoutingRules db shop') = true
      <-> issues (validateRoutingRules db shop') = []).
Proof.
  unfold validateRoutingRules. cbv zeta.
  split; [| apply validate_valid].
  rewrite validate_In. split.
  - intros [[H _] | [[H _] | [(r & _ & H) | (q & H & Hq)]]].
    + by_initial H.
    + by_initial H.
    + apply check_rule_initial in H. rewrite initial_duplicate in H.
      discriminate H.
    + now rewrite (duplicate_priority_issue_inj _ _ H).
  - intros H. right; right; right. now exists p.
Qed.

(** C7. The validator reports that no destination is configured exactly
    when the shop has no destination, and then [valid] is false; it
    reports a missing default exactly when the shop has destinations and
    none of them is the default; with no destination at all the second
    issue is not reported. *)
Theorem destination_issues (db : Db) (shop' : string) :
  (In no_destinations_issue (issues (validateRoutingRules db shop'))
   <-> returnDestination_findMany db shop' = [])
  /\ (returnDestination_findMany db shop' = [] ->
      valid (validateRoutingRules db shop') = false)
  /\ (In no_default_issue (issues (validateRoutingRules db shop'))
      <-> returnDestination_findMany db shop' <> []
          /\ forall d, In d (returnDestination_findMany db shop') ->
                       isDefault d = false)
  /\ (returnDestination_findMany db shop' = [] ->
      ~ In no_default_issue (issues (validateRoutingRules db shop'))).
Proof.
  unfold validateRoutingRules. cbv zeta.
  set (rules := routingRule_findMany db shop').
  set (destinations := returnDestination_findMany db shop').
  assert (H1 : In no_destinations_issue (issues (validate rules destinations))
               <-> destinations = []).
  { rewrite validate_In. split.
    - intros [[_ H] | [[H _] | [(r & _ & H) | (q & H & _)]]].
      + exact H.
      + discriminate H.
      + apply check_rule_initial in H. discriminate H.
      + by_initial H.
    - intros H. now left. }
  assert (H3 : In no_default_issue (issues (validate rules destinations))
               <-> destinations <> []
                   /\ forall d, In d destinations -> isDefault d = false).
  { rewrite validate_In, <- existsb_false_iff. split.
    - intros [[H _] | [[_ H] | [(r & _ & H) | (q & H & _)]]].
      + discriminate H.
      + exact H.
      + apply check_rule_initial in H. discriminate H.
      + by_initial H.
    - intros H. right; left. now split. }
  split; [exact H1 | split; [| split; [exact H3 |]]].
  - intros E. apply H1 in E.
    destruct (valid (validate rules destinations)) eqn:V; [| reflexivity].
    apply validate_valid in V. rewrite V in E. destruct E.
  - intros E [Hne _]%H3. now apply Hne.
Qed.

Lemma destination_issues_witness :
  returnDestination_findMany Tests.emptyDb "test-store.myshopify.com" = []
  /\ valid (validateRoutingRules Tests.emptyDb "test-store.myshopify.com")
     = false.
Proof.
  split; [reflexivity |].
  exact (proj1 (proj2 (destination_issues Tests.emptyDb
                         "test-store.myshopify.com")) eq_refl).
Defined.

(** Two active rules of priority 3 are reported; an active and an inactive
    rule of one priority are not. *)
Example duplicate_priority_cases :
  issues (validateRoutingRules Tests.tiedDb "test-store.myshopify.com")
  = [duplicate_priority_issue 3]
  /\ validateRoutingRules Tests.pausedDb "test-store.myshopify.com"
     = {| valid := true; issues := [] |}
  /\ validateRoutingRules Tests.emptyDb "test-store.myshopify.com"
     = {| valid := false; issues := [no_destinations_issue] |}.
Proof. repeat split; vm_compute; reflexivity. Qed.

(* ===================================================================== *)
(** ** Routing a return: properties of the callers of the selector *)
(* ===================================================================== *)

Section QueryFacts.

Lemma filter_all {A : Type} (f : A -> bool) (l : list A) :
  (forall x, In x l -> f x = true) -> filter f l = l.
Proof.
  induction l as [| x l IH]; simpl; intros H; [reflexivity |].
  rewrite (H x) by now left. f_equal. apply IH. intros y Hy. apply H.
  now right.
Qed.

Lemma filter_perm {A : Type} (f : A -> bool) (l l' : list A) :
  Permutation l l' -> Permutation (filter f l) (filter f l').
Proof.
  induction 1 as [| x l l' _ IH | x y l | l l' l'' _ IH1 _ IH2]; simpl.
  - constructor.
  - destruct (f x); [now constructor | exact IH].
  - destruct (f x), (f y); try apply Permutation_refl. apply perm_swap.
  - now apply perm_trans with (filter f l').
Qed.

Lemma sort_sorted_id (l : list RuleWithDestination) :
  StronglySorted priority_le l -> Js.sort by_priority l = l.
Proof.
  intros H. apply (stable_sort_unique l).
  - apply sort_is_stable_sort.
  - split; [apply Permutation_refl | split; [exact H | reflexivity]].
Qed.

Lemma findMany_active_answer (db : Db) (shop' : string) :
  query_answer db shop' (routingRule_findMany_active db shop').
Proof. split; [apply sort_perm | apply sort_sorted]. Qed.

Lemma findFirst_default_answer (db : Db) (shop' : string) :
  default_answer db shop' (returnDestination_findFirst_default db shop').
Proof.
  unfold default_answer, returnDestination_findFirst_default,
    returnDestination_findMany.
  destruct (find _ _) as [d |] eqn:E.
  - apply find_some in E as [Hin Hd]. apply andb_true_iff in Hd as [Hs Hd].
    split; [| exact Hd]. apply filter_In. now split.
  - intros x Hx. apply filter_In in Hx as [Hin Hs].
    pose proof (find_none _ _ E x Hin) as Hn. simpl in Hn.
    rewrite Hs in Hn. exact Hn.
Qed.

Lemma query_answer_rows (db : Db) (shop' : string)
  (rows : list RuleWithDestination) (r : RuleWithDestination) :
  query_answer db shop' rows ->
  (In r rows <->
   In r (routingRule_findMany db shop') /\ isActive r = true).
Proof.
  intros [Hp _]. split.
  - intros H. apply (Permutation_in _ (Permutation_sym Hp)) in H.
    now apply filter_In in H.
  - intros H. apply (Permutation_in _ Hp). now apply filter_In.
Qed.

Lemma findMany_shop (db : Db) (shop' : string) (r : RuleWithDestination) :
  In r (routingRule_findMany db shop') -> shop r = shop'.
Proof.
  unfold routingRule_findMany. rewrite in_map_iff.
  intros (x & <- & Hx). apply filter_In in Hx as [_ Hs]. simpl.
  now apply String.eqb_eq.
Qed.

Lemma find_split {A : Type} (f : A -> bool) (l : list A) (r : A) :
  find f l = Some r ->
  exists before after,
    l = (before ++ r :: after)%list
    /\ (forall x, In x before -> f x = false) /\ f r = true.
Proof.
  induction l as [| y l IH]; simpl; [discriminate |].
  destruct (f y) eqn:Ey.
  - intros E. injection E as <-. exists [], l. repeat split; auto.
    intros x [].
  - intros E. destruct (IH E) as (before & after & -> & Hb & Hr).
    exists (y :: before), after. repeat split; auto.
    intros x [<- | Hx]; auto.
Qed.

Lemma sorted_after (before after : list RuleWithDestination)
  (r : RuleWithDestination) :
  StronglySorted priority_le (before ++ r :: after)%list ->
  Forall (priority_le r) after.
Proof.
  induction before as [| y before IH]; simpl; intros H;
    inversion H; subst; auto.
Qed.

Lemma route_matchedRule (rows : list RuleWithDestination)
  (dflt : option ReturnDestination) (context : RoutingContext) :
  matchedRule (routeReturnRequest_with rows dflt context)
  = find (fun r : RuleWithDestination => matches context r) rows.
Proof.
  induction rows as [| r rows IH]; simpl; [reflexivity |].
  rewrite matches_ToBoolean.
  now destruct (Js.ToBoolean (evaluateCondition r context)).
Qed.

Lemma route_destination_find (rows : list RuleWithDestination)
  (dflt : option ReturnDestination) (context : RoutingContext) :
  route_destination (routeReturnRequest_with rows dflt context)
  = match find (fun r : RuleWithDestination => matches context r) rows with
    | Some r => destination r
    | None => dflt
    end.
Proof.
  induction rows as [| r rows IH]; simpl; [reflexivity |].
  rewrite matches_ToBoolean.
  now destruct (Js.ToBoolean (evaluateCondition r context)).
Qed.

Lemma findMatchingDestination_rows (db : Db) (shop' : string)
  (rows : list RuleWithDestination) (context : RoutingContext) :
  query_answer db shop' rows ->
  Js.sort by_priority
    (filter (fun r : RuleWithDestination => isActive r) rows) = rows
  /\ findMatchingDestination rows context
     = first_matching_destination rows context.
Proof.
  intros Hq.
  assert (E : Js.sort by_priority
                (filter (fun r : RuleWithDestination => isActive r) rows)
              = rows).
  { rewrite filter_all.
    - apply sort_sorted_id, Hq.
    - intros x Hx. now apply (query_answer_rows _ _ _ _ Hq) in Hx. }
  split; [exact E |].
  unfold findMatchingDestination. now rewrite E, first_match_find.
Qed.

End QueryFacts.

(** X1. The rows [getDestinationForReturn] loads are already active and
    in ascending priority, so the filter and the sort inside
    [findMatchingDestination] leave them as they are: the selector goes
    through the rows in the order the database returned them. *)
Theorem selector_keeps_query_order (db : Db) (shop' : string)
  (rows : list RuleWithDestination) (context : RoutingContext) :
  query_answer db shop' rows ->
  Js.sort by_priority
    (filter (fun r : RuleWithDestination => isActive r) rows) = rows
  /\ findMatchingDestination rows context
     = first_matching_destination rows context.
Proof. apply findMatchingDestination_rows. Qed.

Lemma selector_keeps_query_order_witness :
  query_answer Tests.tiedDb "test-store.myshopify.com"
    (routingRule_findMany_active Tests.tiedDb "test-store.myshopify.com")
  /\ findMatchingDestination
       (routingRule_findMany_active Tests.tiedDb "test-store.myshopify.com")
       Tests.electronicsContext
     = first_matching_destination
         (routingRule_findMany_active Tests.tiedDb
            "test-store.myshopify.com")
         Tests.electronicsContext.
Proof.
  assert (H := findMany_active_answer Tests.tiedDb
                 "test-store.myshopify.com").
  split; [exact H |].
  exact (proj2 (selector_keeps_query_order _ _ _
                  Tests.electronicsContext H)).
Defined.

Lemma getDestination_versus_route_aux (db : Db) (shop' : string)
  (rows : list RuleWithDestination) (dflt : option ReturnDestination)
  (context : RoutingContext) :
  query_answer db shop' rows ->
  getDestinationForReturn_with rows dflt context
  = match route_destination (routeReturnRequest_with rows dflt context) with
    | Some d => Some d
    | None => dflt
    end
  /\ (route_destination (routeReturnRequest_with rows dflt context)
      = getDestinationForReturn_with rows dflt context
      \/ exists r,
           matchedRule (routeReturnRequest_with rows dflt context) = Some r
           /\ destination r = None
           /\ route_destination (routeReturnRequest_with rows dflt context)
              = None
           /\ getDestinationForReturn_with rows dflt context = dflt).
Proof.
  intros Hq. unfold getDestinationForReturn_with.
  rewrite (proj2 (findMatchingDestination_rows _ _ _ context Hq)).
  rewrite route_destination_find, route_matchedRule.
  unfold first_matching_destination.
  destruct (find _ rows) as [r |].
  - destruct (destination r) as [d |] eqn:Ed.
    + split; [reflexivity | now left].
    + split; [reflexivity |]. right. now exists r.
  - split; [now destruct dflt | left; reflexivity].
Qed.

(** X2. On the same rows and the same default, the destination of
    [getDestinationForReturn] is the destination of [routeReturnRequest]
    when that one is not null, and the default otherwise. The two differ
    only when the first matching rule has lost its destination: then
    [routeReturnRequest] answers null with that rule as [matchedRule],
    while [getDestinationForReturn] answers the default. *)
Theorem getDestination_versus_route (db : Db) (shop' : string)
  (rows : list RuleWithDestination) (dflt : option ReturnDestination)
  (context : RoutingContext) :
  query_answer db shop' rows ->
  getDestinationForReturn_with rows dflt context
  = match route_destination (routeReturnRequest_with rows dflt context) with
    | Some d => Some d
    | None => dflt
    end
  /\ (route_destination (routeReturnRequest_with rows dflt context)
      = getDestinationForReturn_with rows dflt context
      \/ exists r,
           matchedRule (routeReturnRequest_with rows dflt context) = Some r
           /\ destination r = None
           /\ route_destination (routeReturnRequest_with rows dflt context)
              = None
           /\ getDestinationForReturn_with rows dflt context = dflt).
Proof. apply getDestination_versus_route_aux. Qed.

Lemma getDestination_versus_route_witness :
  query_answer Tests.danglingDb "test-store.myshopify.com"
    (routingRule_findMany_active Tests.danglingDb "test-store.myshopify.com")
  /\ getDestinationForReturn Tests.danglingDb "test-store.myshopify.com"
       Tests.electronicsContext = Some Tests.mockReturnDestination
  /\ route_destination
       (routeReturnRequest Tests.danglingDb "test-store.myshopify.com"
          "return_123" Tests.electronicsContext) = None.
Proof.
  assert (H := findMany_active_answer Tests.danglingDb
                 "test-store.myshopify.com").
  split; [exact H |].
  pose proof (proj1 (getDestination_versus_route _ _ _
                       (returnDestination_findFirst_default Tests.danglingDb
                          "test-store.myshopify.com")
                       Tests.electronicsContext H)) as E.
  split; [| vm_compute; reflexivity].
  unfold getDestinationForReturn. rewrite E. vm_compute. reflexivity.
Defined.

(** X3. The rule [routeReturnRequest] reports as [matchedRule] is an
    active rule of the shop whose condition is true, the destination
    reported is that rule's, and no active rule of the shop whose
    condition is true has a smaller priority number. *)
Theorem route_matched_rule (db : Db) (shop' : string)
  (rows : list RuleWithDestination) (dflt : option ReturnDestination)
  (context : RoutingContext) (r : RuleWithDestination) :
  query_answer db shop' rows ->
  matchedRule (routeReturnRequest_with rows dflt context) = Some r ->
  In r (routingRule_findMany db shop')
  /\ shop r = shop'
  /\ isActive r = true
  /\ evaluateCondition r context = Js.Bool true
  /\ route_destination (routeReturnRequest_with rows dflt context)
     = destination r
  /\ forall r' : RuleWithDestination,
       In r' (routingRule_findMany db shop') -> isActive r' = true ->
       evaluateCondition r' context = Js.Bool true ->
       priority r <= priority r'.
Proof.
  intros Hq Hm. rewrite route_destination_find.
  rewrite route_matchedRule in Hm. rewrite Hm.
  destruct (find_split _ _ _ Hm) as (before & after & E & Hb & Hr).
  assert (Hin : In r rows).
  { rewrite E. apply in_or_app. right. now left. }
  apply (query_answer_rows _ _ _ _ Hq) in Hin as [Hin Ha].
  split; [exact Hin |].
  split; [now apply (findMany_shop db) |].
  split; [exact Ha |].
  split; [now apply matches_true |].
  split; [reflexivity |].
  intros r' Hin' Ha' He'.
  assert (Hr' : In r' rows) by now apply (query_answer_rows _ _ _ _ Hq).
  rewrite E in Hr'. apply in_app_or in Hr' as [Hr' | [<- | Hr']].
  - apply Hb in Hr'. apply matches_true in He'. congruence.
  - lia.
  - destruct Hq as [_ Hs]. rewrite E in Hs. apply sorted_after in Hs.
    rewrite Forall_forall in Hs. apply (Hs r' Hr').
Qed.

Lemma route_matched_rule_witness :
  query_answer Tests.danglingDb "test-store.myshopify.com"
    (routingRule_findMany_active Tests.danglingDb "test-store.myshopify.com")
  /\ (exists r,
        matchedRule
          (routeReturnRequest Tests.danglingDb "test-store.myshopify.com"
             "return_123" Tests.electronicsContext) = Some r
        /\ shop r = "test-store.myshopify.com"
        /\ isActive r = true).
Proof.
  assert (H := findMany_active_answer Tests.danglingDb
                 "test-store.myshopify.com").
  split; [exact H |].
  eexists. split; [vm_compute; reflexivity |].
  pose proof (route_matched_rule Tests.danglingDb "test-store.myshopify.com"
                _ (returnDestination_findFirst_default Tests.danglingDb
                     "test-store.myshopify.com")
                Tests.electronicsContext _ H
                (eq_refl : matchedRule
                   (routeReturnRequest Tests.danglingDb
                      "test-store.myshopify.com" "return_123"
                      Tests.electronicsContext) = Some _))
    as (_ & Hs & Ha & _).
  split; [exact Hs | exact Ha].
Defined.

(** X4. [routeReturnRequest] reports no matched rule exactly when no
    active rule of the shop has a true condition; its destination is then
    what the query of the default answered: one of the shop's destinations
    flagged as default, or null exactly when the shop has no default
    destination. *)
Theorem route_without_match (db : Db) (shop' : string)
  (rows : list RuleWithDestination) (dflt : option ReturnDestination)
  (context : RoutingContext) :
  query_answer db shop' rows ->
  default_answer db shop' dflt ->
  (matchedRule (routeReturnRequest_with rows dflt context) = None
   <-> forall r : RuleWithDestination,
         In r (routingRule_findMany db shop') -> isActive r = true ->
         evaluateCondition r context <> Js.Bool true)
  /\ (matchedRule (routeReturnRequest_with rows dflt context) = None ->
      route_destination (routeReturnRequest_with rows dflt context) = dflt
      /\ match route_destination
                (routeReturnRequest_with rows dflt context) with
         | Some d =>
             In d (returnDestination_findMany db shop')
             /\ isDefault d = true
         | None =>
             forall x, In x (returnDestination_findMany db shop') ->
                       isDefault x = false
         end).
Proof.
  intros Hq Hd. rewrite route_matchedRule, route_destination_find. split.
  - split.
    + intros Hn r Hin Ha He.
      assert (Hr : In r rows) by now apply (query_answer_rows _ _ _ _ Hq).
      pose proof (find_none _ _ Hn r Hr) as Hf. simpl in Hf.
      apply matches_true in He. congruence.
    + intros Hall. destruct (find _ rows) as [r |] eqn:E; [| reflexivity].
      apply find_some in E as [Hin Hm]. exfalso.
      apply (query_answer_rows _ _ _ _ Hq) in Hin as [Hin Ha].
      apply (Hall r Hin Ha). now apply matches_true.
  - intros ->. split; [reflexivity | exact Hd].
Qed.

Lemma route_without_match_witness :
  query_answer Tests.clothingDb "test-store.myshopify.com"
    (routingRule_findMany_active Tests.clothingDb "test-store.myshopify.com")
  /\ default_answer Tests.clothingDb "test-store.myshopify.com"
       (returnDestination_findFirst_default Tests.clothingDb
          "test-store.myshopify.com")
  /\ matchedRule
       (routeReturnRequest Tests.clothingDb "test-store.myshopify.com"
          "return_123" Tests.electronicsContext) = None
  /\ route_destination
       (routeReturnRequest Tests.clothingDb "test-store.myshopify.com"
          "return_123" Tests.electronicsContext)
     = Some Tests.mockReturnDestination
  /\ In Tests.mockReturnDestination
        (returnDestination_findMany Tests.clothingDb
           "test-store.myshopify.com")
  /\ isDefault Tests.mockReturnDestination = true.
Proof.
  assert (H := findMany_active_answer Tests.clothingDb
                 "test-store.myshopify.com").
  assert (H' := findFirst_default_answer Tests.clothingDb
                  "test-store.myshopify.com").
  assert (Hm : matchedRule
                 (routeReturnRequest Tests.clothingDb
                    "test-store.myshopify.com" "return_123"
                    Tests.electronicsContext) = None) by reflexivity.
  destruct (proj2 (route_without_match _ _ _ _ Tests.electronicsContext
                     H H') Hm) as [E1 E2].
  split; [exact H | split; [exact H' | split; [exact Hm |]]].
  split; [exact E1 | exact E2].
Defined.

(** X5. [getDestinationForReturn] never makes a destination up: what it
    returns is the destination of an active rule of the shop whose
    condition is true, or the shop's default destination. *)
Theorem getDestination_provenance (db : Db) (shop' : string)
  (rows : list RuleWithDestination) (dflt : option ReturnDestination)
  (context : RoutingContext) (d : ReturnDestination) :
  query_answer db shop' rows ->
  default_answer db shop' dflt ->
  getDestinationForReturn_with rows dflt context = Some d ->
  (exists r : RuleWithDestination,
     In r (routingRule_findMany db shop') /\ isActive r = true
     /\ evaluateCondition r context = Js.Bool true
     /\ destination r = Some d)
  \/ (In d (returnDestination_findMany db shop') /\ isDefault d = true).
Proof.
  intros Hq Hd. unfold getDestinationForReturn_with.
  rewrite (proj2 (findMatchingDestination_rows _ _ _ context Hq)).
  unfold first_matching_destination.
  destruct (find _ rows) as [r |] eqn:E.
  - apply find_some in E as [Hin Hm].
    apply (query_answer_rows _ _ _ _ Hq) in Hin as [Hin Ha].
    destruct (destination r) as [x |] eqn:Ex.
    + intros [= <-]. left. exists r. repeat split; auto.
      now apply matches_true.
    + intros ->. right. exact Hd.
  - intros ->. right. exact Hd.
Qed.

Lemma getDestination_provenance_witness :
  query_answer Tests.healthyDb "test-store.myshopify.com"
    (routingRule_findMany_active Tests.healthyDb "test-store.myshopify.com")
  /\ default_answer Tests.healthyDb "test-store.myshopify.com"
       (returnDestination_findFirst_default Tests.healthyDb
          "test-store.myshopify.com")
  /\ getDestinationForReturn Tests.healthyDb "test-store.myshopify.com"
       Tests.electronicsContext = Some Tests.mockReturnDestination
  /\ ((exists r : RuleWithDestination,
         In r (routingRule_findMany Tests.healthyDb
                 "test-store.myshopify.com")
         /\ isActive r = true
         /\ evaluateCondition r Tests.electronicsContext = Js.Bool true
         /\ destination r = Some Tests.mockReturnDestination)
      \/ (In Tests.mockReturnDestination
            (returnDestination_findMany Tests.healthyDb
               "test-store.myshopify.com")
          /\ isDefault Tests.mockReturnDestination = true)).
Proof.
  assert (H := findMany_active_answer Tests.healthyDb
                 "test-store.myshopify.com").
  assert (H' := findFirst_default_answer Tests.healthyDb
                  "test-store.myshopify.com").
  assert (E : getDestinationForReturn Tests.healthyDb
                "test-store.myshopify.com" Tests.electronicsContext
              = Some Tests.mockReturnDestination)
    by (vm_compute; reflexivity).
  split; [exact H | split; [exact H' | split; [exact E |]]].
  exact (getDestination_provenance _ _ _ _ _ _ H H' E).
Defined.

(** What one rule contributes to the issues. *)
Section RuleIssues.

Variable r : RuleWithDestination.

Lemma check_rule_deleted :
  destination r = None ->
  In (deleted_destination_issue (name r)) (check_rule [] r).
Proof.
  intros H. unfold check_rule. rewrite H. simpl push_if at 1.
  destruct (_ || _); [| now left].
  rewrite push_if_app. apply in_or_app. left. now left.
Qed.

Lemma check_rule_invalid :
  threshold_type (conditionType r) = true ->
  isNaN (parseFloat (conditionValue r)) = true ->
  In (invalid_numeric_issue (name r) (conditionValue r)) (check_rule [] r).
Proof.
  unfold threshold_type, check_rule. intros -> ->.
  unfold push_if at 1. apply in_or_app. right. now left.
Qed.

Lemma check_rule_nil :
  destination r <> None ->
  (threshold_type (conditionType r) = true ->
   isNaN (parseFloat (conditionValue r)) = false) ->
  check_rule [] r = [].
Proof.
  unfold threshold_type, check_rule. intros Hd Ht.
  destruct (destination r); [| congruence]. simpl.
  destruct (_ || _); [| reflexivity].
  now rewrite Ht.
Qed.

End RuleIssues.

Section Health.

Variables (rules : list RuleWithDestination)
          (destinations : list ReturnDestination).

Lemma no_issue_iff (l : list string) : l = [] <-> forall x, ~ In x l.
Proof.
  split; [intros -> x [] |].
  destruct l as [| y l]; [reflexivity |].
  intros H. exfalso. apply (H y). now left.
Qed.

Lemma validate_healthy :
  valid (validate rules destinations) = true <->
  (exists d, In d destinations /\ isDefault d = true)
  /\ (forall r : RuleWithDestination, In r rules -> destination r <> None)
  /\ (forall r : RuleWithDestination,
        In r rules -> threshold_type (conditionType r) = true ->
        isNaN (parseFloat (conditionValue r)) = false)
  /\ (forall p, (active_with_priority p rules <= 1)%nat).
Proof.
  rewrite validate_valid, no_issue_iff. split.
  - intros H. repeat split.
    + destruct (existsb isDefault destinations) eqn:E.
      * apply existsb_exists in E. exact E.
      * exfalso. destruct destinations as [| d ds] eqn:Ed.
        -- apply (H no_destinations_issue), validate_In. now left.
        -- apply (H no_default_issue), validate_In. right; left.
           repeat split; [discriminate | exact E].
    + intros r Hin Hd.
      apply (H (deleted_destination_issue (name r))), validate_In.
      right; right; left. exists r. split; auto.
      now apply check_rule_deleted.
    + intros r Hin Ht.
      destruct (isNaN (parseFloat (conditionValue r))) eqn:En; auto.
      exfalso.
      apply (H (invalid_numeric_issue (name r) (conditionValue r))),
        validate_In.
      right; right; left. exists r. split; auto.
      now apply check_rule_invalid.
    + intros p.
      destruct (le_lt_dec (active_with_priority p rules) 1) as [Hle | Hlt];
        [exact Hle | exfalso].
      apply (H (duplicate_priority_issue p)), validate_In.
      right; right; right. now exists p.
  - intros ((d & Hd & Hdef) & Hdest & Hnum & Hdup) x Hx.
    apply validate_In in Hx
      as [[_ E] | [[_ [_ E]] | [(r & Hin & Hr) | (p & _ & Hp)]]].
    + subst. destruct Hd.
    + rewrite existsb_false_iff in E. rewrite (E d Hd) in Hdef.
      discriminate.
    + rewrite check_rule_nil in Hr by auto. destruct Hr.
    + specialize (Hdup p). lia.
Qed.

End Health.

(** X6. [validateRoutingRules] answers [valid = true] exactly when the
    shop has a default destination, every rule of the shop has its
    destination, every value-threshold rule has a value [parseFloat] reads
    as a number, and no two active rules share a priority. *)
Theorem valid_iff_healthy (db : Db) (shop' : string) :
  valid (validateRoutingRules db shop') = true <->
  (exists d, In d (returnDestination_findMany db shop')
             /\ isDefault d = true)
  /\ (forall r : RuleWithDestination,
        In r (routingRule_findMany db shop') -> destination r <> None)
  /\ (forall r : RuleWithDestination,
        In r (routingRule_findMany db shop') ->
        threshold_type (conditionType r) = true ->
        isNaN (parseFloat (conditionValue r)) = false)
  /\ (forall p,
        (active_with_priority p (routingRule_findMany db shop') <= 1)%nat).
Proof. apply validate_healthy. Qed.

(** X7. Every rule of the shop that has lost its destination is reported
    under its name, and every value-threshold rule whose value is not a
    number is reported under its name with that value. *)
Theorem broken_rules_reported (db : Db) (shop' : string)
  (r : RuleWithDestination) :
  In r (routingRule_findMany db shop') ->
  (destination r = None ->
   In (deleted_destination_issue (name r))
      (issues (validateRoutingRules db shop')))
  /\ (threshold_type (conditionType r) = true ->
      isNaN (parseFloat (conditionValue r)) = true ->
      In (invalid_numeric_issue (name r) (conditionValue r))
         (issues (validateRoutingRules db shop'))).
Proof.
  intros Hin. unfold validateRoutingRules. cbv zeta. split.
  - intros Hd. apply validate_In. right; right; left.
    exists r. split; auto. now apply check_rule_deleted.
  - intros Ht Hn. apply validate_In. right; right; left.
    exists r. split; auto. now apply check_rule_invalid.
Qed.

Lemma broken_rules_reported_witness :
  In (hd Tests.invalidRule
        (routingRule_findMany Tests.brokenDb "test-store.myshopify.com"))
     (routingRule_findMany Tests.brokenDb "test-store.myshopify.com")
  /\ In (deleted_destination_issue "Big orders")
        (issues (validateRoutingRules Tests.brokenDb
                   "test-store.myshopify.com"))
  /\ In (invalid_numeric_issue "Big orders" "fifty")
        (issues (validateRoutingRules Tests.brokenDb
                   "test-store.myshopify.com")).
Proof.
  assert (H : In (hd Tests.invalidRule
                    (routingRule_findMany Tests.brokenDb
                       "test-store.myshopify.com"))
                 (routingRule_findMany Tests.brokenDb
                    "test-store.myshopify.com")) by (left; reflexivity).
  split; [exact H |].
  destruct (broken_rules_reported Tests.brokenDb "test-store.myshopify.com"
              _ H) as [H1 H2].
  split; [exact (H1 eq_refl) | exact (H2 eq_refl eq_refl)].
Defined.

Section DistinctPriorities.

Lemma active_class_length (p : Z) (rules : list RuleWithDestination) :
  List.length
    (with_priority p
       (filter (fun r : RuleWithDestination => isActive r) rules))
  = active_with_priority p rules.
Proof. unfold with_priority. now rewrite filter_twice. Qed.

Lemma short_perm_eq {A : Type} (a b : list A) :
  Permutation a b -> (List.length a <= 1)%nat -> a = b.
Proof.
  destruct a as [| x [| y a]]; simpl; intros Hp Hl.
  - symmetry. now apply Permutation_nil.
  - symmetry. now apply Permutation_length_1_inv.
  - lia.
Qed.

Lemma classes_of_perm (a b : list RuleWithDestination) :
  Permutation a b ->
  (forall p, (List.length (with_priority p a) <= 1)%nat) ->
  forall p, with_priority p a = with_priority p b.
Proof.
  intros Hp Hl p. apply short_perm_eq; [| apply Hl].
  now apply filter_perm.
Qed.

Lemma sorted_perm_unique (a s1 s2 : list RuleWithDestination) :
  (forall p, (List.length (with_priority p a) <= 1)%nat) ->
  Permutation a s1 -> StronglySorted priority_le s1 ->
  Permutation a s2 -> StronglySorted priority_le s2 ->
  s1 = s2.
Proof.
  intros Hl Hp1 Hs1 Hp2 Hs2. apply sorted_classes_unique; auto.
  intros p.
  now rewrite <- (classes_of_perm _ _ Hp1 Hl), <- (classes_of_perm _ _ Hp2 Hl).
Qed.

End DistinctPriorities.

(** X8. When no two active rules share a priority, the result of
    [findMatchingDestination] does not depend on the order in which the
    rules are passed. *)
Theorem selection_ignores_input_order
  (rules rules' : list RuleWithDestination) (context : RoutingContext) :
  (forall p, (active_with_priority p rules <= 1)%nat) ->
  Permutation rules rules' ->
  findMatchingDestination rules context
  = findMatchingDestination rules' context.
Proof.
  intros Hl Hp. unfold findMatchingDestination. f_equal.
  apply (sorted_perm_unique
           (filter (fun r : RuleWithDestination => isActive r) rules)).
  - intros p. rewrite active_class_length. apply Hl.
  - apply sort_perm.
  - apply sort_sorted.
  - eapply perm_trans; [apply filter_perm, Hp | apply sort_perm].
  - apply sort_sorted.
Qed.

Lemma selection_ignores_input_order_witness :
  (forall p, (active_with_priority p Tests.byPriorityRules <= 1)%nat)
  /\ Permutation Tests.byPriorityRules (rev Tests.byPriorityRules)
  /\ findMatchingDestination Tests.byPriorityRules Tests.electronicsContext
     = findMatchingDestination (rev Tests.byPriorityRules)
         Tests.electronicsContext.
Proof.
  assert (H : forall p,
             (active_with_priority p Tests.byPriorityRules <= 1)%nat).
  { intros p. unfold active_with_priority. simpl.
    destruct p as [| q |]; simpl; try lia.
    destruct q as [[] | [] |]; simpl; lia. }
  assert (H' : Permutation Tests.byPriorityRules
                 (rev Tests.byPriorityRules)) by apply perm_swap.
  split; [exact H | split; [exact H' |]].
  exact (selection_ignores_input_order _ _ Tests.electronicsContext H H').
Defined.

(** With a tie the order of the input decides. *)
Example tie_follows_input_order :
  findMatchingDestination Tests.tiedRules Tests.electronicsContext
  = Some Tests.destB
  /\ findMatchingDestination (rev Tests.tiedRules) Tests.electronicsContext
     = Some Tests.destA.
Proof. split; vm_compute; reflexivity. Qed.

(** X9. When [validateRoutingRules] answers [valid = true], the ordered
    query of the active rules has one possible answer only, so the order
    the database gives to rows of equal priority cannot change what
    [routeReturnRequest] and [getDestinationForReturn] return. *)
Theorem valid_fixes_query_order (db : Db) (shop' : string)
  (rows1 rows2 : list RuleWithDestination) :
  valid (validateRoutingRules db shop') = true ->
  query_answer db shop' rows1 -> query_answer db shop' rows2 ->
  rows1 = rows2.
Proof.
  intros Hv [Hp1 Hs1] [Hp2 Hs2].
  apply validate_healthy in Hv as (_ & _ & _ & Hl).
  apply (sorted_perm_unique _ _ _ (fun p =>
           eq_ind_r (fun n => (n <= 1)%nat) (Hl p)
                    (active_class_length p _)) Hp1 Hs1 Hp2 Hs2).
Qed.

Lemma valid_fixes_query_order_witness :
  valid (validateRoutingRules Tests.twoRulesDb "test-store.myshopify.com")
  = true
  /\ query_answer Tests.twoRulesDb "test-store.myshopify.com"
       (routingRule_findMany_active Tests.twoRulesDb
          "test-store.myshopify.com")
  /\ query_answer Tests.twoRulesDb "test-store.myshopify.com"
       Tests.twoRulesByPriority
  /\ routingRule_findMany_active Tests.twoRulesDb "test-store.myshopify.com"
     = Tests.twoRulesByPriority.
Proof.
  assert (Hv : valid (validateRoutingRules Tests.twoRulesDb
                        "test-store.myshopify.com") = true)
    by (vm_compute; reflexivity).
  assert (H1 := findMany_active_answer Tests.twoRulesDb
                  "test-store.myshopify.com").
  assert (H2 : query_answer Tests.twoRulesDb "test-store.myshopify.com"
                 Tests.twoRulesByPriority).
  { split.
    - change (Permutation (rev Tests.twoRulesByPriority)
                          Tests.twoRulesByPriority).
      apply Permutation_sym, Permutation_rev.
    - unfold Tests.twoRulesByPriority.
      repeat constructor; unfold priority_le; simpl; lia. }
  split; [exact Hv | split; [exact H1 | split; [exact H2 |]]].
  exact (valid_fixes_query_order Tests.twoRulesDb "test-store.myshopify.com"
           _ _ Hv H1 H2).
Defined.

(** X10. When [validateRoutingRules] answers [valid = true], every return
    gets a destination: neither [routeReturnRequest] nor
    [getDestinationForReturn] answers null, whatever the context. *)
Theorem valid_routes_resolve (db : Db) (shop' : string)
  (rows : list RuleWithDestination) (dflt : option ReturnDestination)
  (context : RoutingContext) :
  valid (validateRoutingRules db shop') = true ->
  query_answer db shop' rows ->
  default_answer db shop' dflt ->
  route_destination (routeReturnRequest_with rows dflt context) <> None
  /\ getDestinationForReturn_with rows dflt context <> None.
Proof.
  intros Hv Hq Hd.
  apply validate_healthy in Hv as ((d & Hin & Hdef) & Hdest & _ & _).
  assert (Hs : dflt <> None).
  { destruct dflt; [discriminate |]. simpl in Hd.
    rewrite (Hd d Hin) in Hdef. discriminate. }
  assert (Hr : route_destination (routeReturnRequest_with rows dflt context)
               <> None).
  { rewrite route_destination_find.
    destruct (find _ rows) as [r |] eqn:E; [| exact Hs].
    apply find_some in E as [Hr _].
    apply (query_answer_rows _ _ _ _ Hq) in Hr as [Hr _]. now apply Hdest. }
  split; [exact Hr |].
  rewrite (proj1 (getDestination_versus_route_aux _ _ _ dflt context Hq)).
  destruct (route_destination _); [discriminate | exact Hs].
Qed.

Lemma valid_routes_resolve_witness :
  valid (validateRoutingRules Tests.healthyDb "test-store.myshopify.com")
  = true
  /\ route_destination
       (routeReturnRequest Tests.healthyDb "test-store.myshopify.com"
          "return_123" Tests.baseContext) <> None
  /\ getDestinationForReturn Tests.healthyDb "test-store.myshopify.com"
       Tests.baseContext <> None.
Proof.
  split; [reflexivity |].
  exact (valid_routes_resolve Tests.healthyDb "test-store.myshopify.com"
           _ _ Tests.baseContext eq_refl
           (findMany_active_answer _ _) (findFirst_default_answer _ _)).
Defined.

Section Comparison.

Lemma SFcompare_antisym (x y : spec_float) :
  SFcompare y x
  = match SFcompare x y with
    | Some c => Some (CompOpp c)
    | None => None
    end.
Proof.
  destruct x as [sx | sx | | sx mx ex], y as [sy | sy | | sy my ey];
    simpl; try reflexivity;
    try (destruct sx; reflexivity); try (destruct sy; reflexivity).
  - destruct sx, sy; reflexivity.
  - rewrite (Z.compare_antisym ex ey).
    destruct sx, sy; try reflexivity;
      destruct (ex ?= ey); simpl; try reflexivity;
      match goal with
      | |- context [?f Eq my mx] =>
          replace (f Eq my mx) with (CompOpp (f Eq mx my))
            by exact (Pos.compare_cont_antisym mx my Eq);
          destruct (f Eq mx my); reflexivity
      end.
Qed.

Lemma lt_not_gt (x y : number) : lt x y = true -> gt x y = false.
Proof.
  unfold lt, gt, SFltb. rewrite (SFcompare_antisym x y).
  destruct (SFcompare x y) as [[] |]; simpl; auto; discriminate.
Qed.

Lemma compare_numbers (x y : number) :
  isNaN x = false -> isNaN y = false ->
  eq x y = true \/ lt x y = true \/ gt x y = true.
Proof.
  unfold eq, lt, gt, SFeqb, SFltb. rewrite (SFcompare_antisym x y).
  destruct x as [sx | sx | | sx mx ex], y as [sy | sy | | sy my ey];
    try discriminate; intros _ _;
    match goal with
    | |- context [SFcompare ?a ?b] =>
        assert (E : exists c, SFcompare a b = Some c)
          by (simpl; eauto)
    end;
    destruct E as [[] ->]; simpl; tauto.
Qed.

End Comparison.

(** X11. An [order_value_above] rule and an [order_value_below] rule with
    the same value are never both true. When the value is read as a
    number and [orderValue] is a number different from it, exactly one of
    the two is true; when [orderValue] is NaN neither is. *)
Theorem thresholds_partition (above below : RoutingRule)
  (context : RoutingContext) :
  conditionType above = "order_value_above" ->
  conditionType below = "order_value_below" ->
  conditionValue above = conditionValue below ->
  ~ (evaluateCondition above context = Js.Bool true
     /\ evaluateCondition below context = Js.Bool true)
  /\ (isNaN (parseFloat (conditionValue above)) = false ->
      isNaN (orderValue context) = false ->
      eq (orderValue context) (parseFloat (conditionValue above)) = false ->
      evaluateCondition above context = Js.Bool true
      \/ evaluateCondition below context = Js.Bool true)
  /\ (isNaN (orderValue context) = true ->
      evaluateCondition above context = Js.Bool false
      /\ evaluateCondition below context = Js.Bool false).
Proof.
  intros Ha Hb Hv.
  rewrite (evaluate_order_value_above _ _ Ha),
    (evaluate_order_value_below _ _ Hb), <- Hv.
  set (t := parseFloat (conditionValue above)).
  set (v := orderValue context).
  split; [| split].
  - intros [E1 E2]. injection E1 as E1. injection E2 as E2.
    apply andb_true_iff in E1 as [_ E1]. apply andb_true_iff in E2 as [_ E2].
    rewrite (lt_not_gt _ _ E2) in E1. discriminate.
  - intros Ht Hn He. rewrite Ht. simpl.
    destruct (compare_numbers v t Hn Ht) as [E | [E | E]].
    + congruence.
    + right. now rewrite E.
    + left. now rewrite E.
  - intros Hn. unfold gt, lt, SFltb. rewrite (SFcompare_antisym v t).
    destruct v; try discriminate. simpl. now rewrite !andb_false_r.
Qed.

Lemma thresholds_partition_witness :
  conditionType (Tests.mockRule "order_value_above" "50")
  = "order_value_above"
  /\ conditionType (Tests.mockRule "order_value_below" "50")
     = "order_value_below"
  /\ (evaluateCondition (Tests.mockRule "order_value_above" "50")
        Tests.baseContext = Js.Bool true
      \/ evaluateCondition (Tests.mockRule "order_value_below" "50")
           Tests.baseContext = Js.Bool true).
Proof.
  split; [reflexivity | split; [reflexivity |]].
  exact (proj1 (proj2 (thresholds_partition
                         (Tests.mockRule "order_value_above" "50")
                         (Tests.mockRule "order_value_below" "50")
                         Tests.baseContext eq_refl eq_refl eq_refl))
               eq_refl eq_refl eq_refl).
Defined.

(** X12. A context built by [buildRoutingContext] from an order without
    line items matches no rule on product type, product tag, vendor or
    sku; built without a return reason it matches no [return_reason]
    rule; built without customer data it matches no [customer_tag]
    rule. *)
Theorem absent_data_never_matches (orderData : OrderData)
  (returnData : ReturnData) (customerData : option CustomerData)
  (rule : RoutingRule) :
  (In (conditionType rule) item_valued -> lineItems orderData = [] ->
   evaluateCondition rule
     (buildRoutingContext orderData returnData customerData)
   = Js.Bool false)
  /\ (conditionType rule = "return_reason" -> reason returnData = None ->
      evaluateCondition rule
        (buildRoutingContext orderData returnData customerData)
      = Js.Bool false)
  /\ (conditionType rule = "customer_tag" -> customerData = None ->
      evaluateCondition rule
        (buildRoutingContext orderData returnData customerData)
      = Js.Bool false).
Proof.
  split; [| split].
  - intros Hin Hl. simpl in Hin.
    destruct Hin as [H | [H | [H | [H | []]]]]; symmetry in H;
      [ rewrite (evaluate_product_type _ _ H)
      | rewrite (evaluate_product_tag _ _ H)
      | rewrite (evaluate_product_vendor _ _ H)
      | rewrite (evaluate_sku_contains _ _ H) ];
      simpl; now rewrite Hl.
  - intros H Hr. rewrite (evaluate_return_reason _ _ H). simpl.
    now rewrite Hr.
  - intros H ->. now rewrite (evaluate_customer_tag _ _ H).
Qed.

Lemma absent_data_never_matches_witness :
  In (conditionType (Tests.mockRule "sku_contains" "")) item_valued
  /\ evaluateCondition (Tests.mockRule "sku_contains" "")
       (buildRoutingContext {| totalValue := of_Z 50; lineItems := [] |}
          {| reason := None |} None)
     = Js.Bool false.
Proof.
  assert (H : In (conditionType (Tests.mockRule "sku_contains" ""))
                 item_valued) by (simpl; tauto).
  split; [exact H |].
  exact (proj1 (absent_data_never_matches
                  {| totalValue := of_Z 50; lineItems := [] |}
                  {| reason := None |} None
                  (Tests.mockRule "sku_contains" "")) H eq_refl).
Defined.

Section Substrings.

Lemma prefix_append (a s : string) :
  prefix a s = true <-> exists post, s = a ++ post.
Proof.
  revert s. induction a as [| c a IH]; intros s; simpl.
  - split; [intros _; now exists s | now destruct s].
  - destruct s as [| d s]; simpl.
    + split; [discriminate | intros [post E]; discriminate].
    + destruct (ascii_dec c d) as [<- | Hne].
      * rewrite IH. split; intros [post E]; exists post; congruence.
      * split; [discriminate | intros [post E]; congruence].
Qed.

Lemma includes_unfold (s search : string) :
  includes s search
  = prefix search s
    || match s with
       | EmptyString => false
       | String _ t => includes t search
       end.
Proof. destruct s; reflexivity. Qed.

Lemma includes_substring (s search : string) :
  includes s search = true <-> exists pre post, s = pre ++ search ++ post.
Proof.
  split.
  - induction s as [| c s IH]; rewrite includes_unfold, orb_true_iff.
    + intros [H | H]; [| discriminate].
      apply prefix_append in H as [post E]. now exists EmptyString, post.
    + intros [H | H].
      * apply prefix_append in H as [post E]. now exists EmptyString, post.
      * destruct (IH H) as (pre & post & ->).
        now exists (String c pre), post.
  - intros (pre & post & ->).
    induction pre as [| c pre IH].
    + rewrite includes_unfold. apply orb_true_iff. left.
      apply prefix_append. now exists post.
    + simpl append. cbn [includes]. rewrite IH. apply orb_true_r.
Qed.

End Substrings.

(** X13. A [sku_contains] rule is true exactly when some item has a sku
    whose lower-case form is made of some text, then the lower-cased and
    trimmed condition value, then some text. *)
Theorem sku_contains_substring (rule : RoutingRule)
  (context : RoutingContext) :
  conditionType rule = "sku_contains" ->
  (evaluateCondition rule context = Js.Bool true <->
   exists item s pre post,
     In item (items context) /\ sku item = Some s
     /\ toLowerCase s
        = pre ++ trim (toLowerCase (conditionValue rule)) ++ post).
Proof.
  intros H. rewrite (evaluate_sku_contains _ _ H). split.
  - intros E. injection E as E.
    apply some_true_iff in E as (item & Hin & E).
    destruct (sku item) as [s |] eqn:Es; [| discriminate E].
    simpl in E. apply includes_substring in E as (pre & post & E).
    now exists item, s, pre, post.
  - intros (item & s & pre & post & Hin & Es & E). f_equal.
    apply some_true_iff. exists item. split; auto.
    rewrite Es. simpl. apply includes_substring. now exists pre, post.
Qed.

Lemma sku_contains_substring_witness :
  conditionType (Tests.mockRule "sku_contains" " 001 ") = "sku_contains"
  /\ evaluateCondition (Tests.mockRule "sku_contains" " 001 ")
       Tests.baseContext = Js.Bool true.
Proof.
  split; [reflexivity |].
  apply (proj2 (sku_contains_substring
                  (Tests.mockRule "sku_contains" " 001 ")
                  Tests.baseContext eq_refl)).
  exists (hd {| productType := None; productTags := None;
                productVendor := None; sku := None |}
             (items Tests.baseContext)),
    "ELEC-001-BLK", "elec-", "-blk".
  repeat split; [left; reflexivity].
Defined.

Section DuplicateCount.

Lemma count_absent (l : list string) (x : string) :
  (forall y, In y l -> y <> x) -> count_occ string_dec l x = 0%nat.
Proof.
  intros H. apply count_occ_not_In. intros Hin. now apply (H x).
Qed.

Lemma map_get_absent (m : Js.Map) (p : Z) :
  ~ In p (map fst m) -> Js.map_get m p = None.
Proof.
  induction m as [| [k c] m IH]; simpl; intros H; [reflexivity |].
  destruct (Z.eqb_spec k p); [tauto | apply IH; tauto].
Qed.

Lemma count_duplicates (m : Js.Map) (p : Z) :
  NoDup (map fst m) ->
  count_occ string_dec (flat_map (check_count []) m)
            (duplicate_priority_issue p)
  = match Js.map_get m p with
    | Some c => if 1 <? c then 1%nat else 0%nat
    | None => 0%nat
    end.
Proof.
  induction m as [| [k c] m IH]; simpl; intros H; [reflexivity |].
  inversion H as [| ? ? Hn Hd]; subst.
  rewrite count_occ_app, (IH Hd).
  unfold push_if. destruct (Z.eqb_spec k p) as [-> | Hne].
  - rewrite (map_get_absent _ _ Hn), Nat.add_0_r.
    destruct (1 <? c); [| reflexivity].
    change ([] ++ [duplicate_priority_issue p])%list
      with [duplicate_priority_issue p].
    now rewrite count_occ_cons_eq.
  - replace (count_occ string_dec _ _) with 0%nat; [reflexivity |].
    symmetry. apply count_absent. intros y Hy.
    destruct (1 <? c); [| destruct Hy].
    destruct Hy as [<- | []]. intros E.
    now apply duplicate_priority_issue_inj in E.
Qed.

End DuplicateCount.

(** X14. A priority shared by several active rules is reported once, not
    once per rule: the duplicate-priority issue for [p] occurs exactly
    once among the issues when more than one active rule of the shop has
    priority [p], and not at all otherwise. *)
Theorem duplicate_priority_reported_once (db : Db) (shop' : string)
  (p : Z) :
  count_occ string_dec (issues (validateRoutingRules db shop'))
            (duplicate_priority_issue p)
  = if (1 <? active_with_priority p (routingRule_findMany db shop'))%nat
    then 1%nat else 0%nat.
Proof.
  unfold validateRoutingRules. cbv zeta. rewrite validate_issues.
  rewrite !count_occ_app.
  rewrite (count_absent (push_if _ no_destinations_issue [])),
    (count_absent (push_if _ no_default_issue [])),
    (count_absent (flat_map (check_rule []) _)).
  - rewrite count_duplicates by (apply counts_NoDup; constructor).
    rewrite counts_get, active_class_length. cbv zeta.
    cbn [Js.map_get Js.or_zero]. rewrite Z.add_0_l.
    set (n := active_with_priority p _).
    destruct (Z.eqb_spec (Z.of_nat n) 0), (Nat.ltb_spec 1 n); try lia;
      try reflexivity;
      destruct (Z.ltb_spec 1 (Z.of_nat n)); try lia; reflexivity.
  - intros y Hy E. subst y. apply in_flat_map in Hy as (r & _ & Hr).
    apply check_rule_initial in Hr. discriminate Hr.
  - intros y Hy E. subst y. unfold push_if in Hy.
    destruct (_ && _); [destruct Hy as [E | []]; discriminate E | destruct Hy].
  - intros y Hy E. subst y. unfold push_if in Hy.
    destruct (Nat.eqb _ _);
      [destruct Hy as [E | []]; discriminate E | destruct Hy].
Qed.

Section Trimming.

Lemma trimStart_head (s : string) (c : ascii) (t : string) :
  trimStart s = String c t -> is_white_space c = false.
Proof.
  induction s as [| d s IH]; simpl; [discriminate |].
  destruct (is_white_space d) eqn:E; [exact IH |].
  intros [= <- _]. exact E.
Qed.

Lemma trimEnd_head (s : string) (c : ascii) (t : string) :
  trimEnd s = String c t -> exists t', s = String c t'.
Proof.
  destruct s as [| d s]; simpl; [discriminate |].
  destruct (trimEnd s); [destruct (is_white_space d); [discriminate |] |];
    intros [= <- _]; now exists s.
Qed.

Lemma trimEnd_last (s t : string) (c : ascii) :
  trimEnd s = t ++ String c EmptyString -> is_white_space c = false.
Proof.
  revert t. induction s as [| d s IH]; intros t; simpl.
  - destruct t; discriminate.
  - destruct (trimEnd s) as [| e u] eqn:E.
    + destruct (is_white_space d) eqn:Ed.
      * destruct t; discriminate.
      * destruct t as [| x [| y t]]; simpl; try discriminate.
        intros [= <-]. exact Ed.
    + destruct t as [| x t]; simpl; [discriminate |].
      intros [= _ H]. now apply (IH t).
Qed.

Lemma trim_not_padded (s : string) : ~ padded (trim s).
Proof.
  unfold trim. intros [(c & t & E & Hc) | (t & c & E & Hc)].
  - destruct (trimEnd_head _ _ _ E) as [t' E'].
    apply trimStart_head in E'. congruence.
  - apply trimEnd_last in E. congruence.
Qed.

Lemma toLowerCase_append (a b : string) :
  toLowerCase (a ++ b) = toLowerCase a ++ toLowerCase b.
Proof. induction a as [| c a IH]; simpl; [reflexivity | now rewrite IH]. Qed.

Lemma toLowerCase_padded (s : string) : padded s -> padded (toLowerCase s).
Proof.
  intros [(c & t & -> & Hc) | (t & c & -> & Hc)].
  - left. exists (lower_unit c), (toLowerCase t). split; [reflexivity |].
    now rewrite lower_unit_white_space.
  - right. exists (toLowerCase t), (lower_unit c).
    split; [apply toLowerCase_append |].
    now rewrite lower_unit_white_space.
Qed.

Lemma padded_never_equal (s value : string) :
  padded s ->
  Js.strict_eq (Js.optional (Some s) toLowerCase)
               (trim (toLowerCase value)) = false.
Proof.
  intros H. simpl. apply String.eqb_neq. intros E.
  apply toLowerCase_padded in H. rewrite E in H.
  now apply trim_not_padded in H.
Qed.

End Trimming.

(** X15. For the six string-valued condition types, white space around
    the condition value is ignored: two rules of one type whose values
    are equal once trimmed evaluate alike in every context. *)
Theorem condition_value_is_trimmed (rule rule' : RoutingRule)
  (context : RoutingContext) :
  In (conditionType rule) string_valued ->
  conditionType rule' = conditionType rule ->
  trim (conditionValue rule') = trim (conditionValue rule) ->
  evaluateCondition rule' context = evaluateCondition rule context.
Proof.
  intros Hin Ht Hv.
  assert (Hn : trim (toLowerCase (conditionValue rule'))
               = trim (toLowerCase (conditionValue rule)))
    by now rewrite !trim_toLowerCase, Hv.
  simpl in Hin.
  destruct Hin as [H | [H | [H | [H | [H | [H | []]]]]]];
    symmetry in H; pose proof H as H'; rewrite <- Ht in H'.
  - now rewrite (evaluate_product_type _ _ H),
      (evaluate_product_type _ _ H'), Hn.
  - now rewrite (evaluate_product_tag _ _ H),
      (evaluate_product_tag _ _ H'), Hn.
  - now rewrite (evaluate_product_vendor _ _ H),
      (evaluate_product_vendor _ _ H'), Hn.
  - now rewrite (evaluate_sku_contains _ _ H),
      (evaluate_sku_contains _ _ H'), Hn.
  - now rewrite (evaluate_return_reason _ _ H),
      (evaluate_return_reason _ _ H'), Hn.
  - now rewrite (evaluate_customer_tag _ _ H),
      (evaluate_customer_tag _ _ H'), Hn.
Qed.

Lemma condition_value_is_trimmed_witness :
  In (conditionType (Tests.mockRule "return_reason" "defective"))
     string_valued
  /\ trim "  defective " = trim "defective"
  /\ evaluateCondition (Tests.mockRule "return_reason" "  defective ")
       Tests.baseContext
     = evaluateCondition (Tests.mockRule "return_reason" "defective")
         Tests.baseContext.
Proof.
  assert (H : In (conditionType (Tests.mockRule "return_reason" "defective"))
                 string_valued) by (simpl; tauto).
  split; [exact H | split; [reflexivity |]].
  exact (condition_value_is_trimmed
           (Tests.mockRule "return_reason" "defective")
           (Tests.mockRule "return_reason" "  defective ")
           Tests.baseContext H eq_refl eq_refl).
Defined.

(** X16. The fields of the context are not trimmed: a return reason that
    begins or ends with white space matches no [return_reason] rule, and
    a context whose items all have such a product type (or none) matches
    no [product_type] rule, whatever the condition value. *)
Theorem padded_context_never_matches (rule : RoutingRule)
  (context : RoutingContext) :
  (conditionType rule = "return_reason" ->
   (forall s, returnReason context = Some s -> padded s) ->
   evaluateCondition rule context = Js.Bool false)
  /\ (conditionType rule = "product_type" ->
      (forall item s,
         In item (items context) -> productType item = Some s -> padded s) ->
      evaluateCondition rule context = Js.Bool false).
Proof.
  split.
  - intros H Hp. rewrite (evaluate_return_reason _ _ H).
    destruct (returnReason context) as [s |]; [| reflexivity].
    now rewrite padded_never_equal by now apply Hp.
  - intros H Hp. rewrite (evaluate_product_type _ _ H). f_equal.
    destruct (Js.some _ _) eqn:E; [| reflexivity].
    apply some_true_iff in E as (item & Hin & E). simpl in E.
    destruct (productType item) as [s |] eqn:Es; [| discriminate E].
    now rewrite padded_never_equal in E by now apply (Hp item).
Qed.

Lemma padded_context_never_matches_witness :
  conditionType (Tests.mockRule "return_reason" "defective")
  = "return_reason"
  /\ padded "defective "
  /\ evaluateCondition (Tests.mockRule "return_reason" "defective")
       {| orderValue := of_Z 100; returnReason := Some "defective ";
          customerTags := None; items := [] |} = Js.Bool false.
Proof.
  assert (H : padded "defective ").
  { right. exists "defective", " "%char. split; reflexivity. }
  split; [reflexivity | split; [exact H |]].
  apply (proj1 (padded_context_never_matches
                  (Tests.mockRule "return_reason" "defective")
                  {| orderValue := of_Z 100;
                     returnReason := Some "defective ";
                     customerTags := None; items := [] |}) eq_refl).
  intros s [= <-]. exact H.
Defined.
